(** * crowdin-api: a shallow embedding of [src/index.js]

    The module keeps two globals ([apiKey], [baseUrl]) and wraps each REST
    endpoint of the vendor in one function.  Every wrapper goes through one of
    three private helpers: [getApiCall], [postApiCall] (both post-processed by
    [handleRequest]) and [getApiRequest] (which hands back the HTTP library's
    promise untouched).

    JavaScript objects are mutable and passed by reference, and
    [util._extend] writes into its first argument, so objects live in a heap
    and are named by locations.  The HTTP library, [JSON.parse] and the
    printing of numbers are not code of this module: they are section
    variables, and every theorem holds for all of them.

    The read streams that the module creates with [fs.createReadStream] are
    recorded in the order of their creation.

    A public function either throws at once ([Abrupt]) or returns a promise
    ([Normal]); the promise is modelled settled, [Fulfilled] or [Rejected].
    For the caller of an asynchronous operation the rejection is the
    exception. *)

From stdpp Require Import gmap strings list fin_maps pretty.

(** ** JavaScript data *)

(** Values stored in the properties of parameter objects. *)
Inductive value :=
  | VUndefined
  | VBool (b : bool)
  | VNum (n : Z)
  | VStr (s : string)
  | VStream (path : string).   (* result of fs.createReadStream(path) *)

Abbreviation obj := (gmap string value).

(** A reference to an object of the heap. *)
Abbreviation loc := nat.

(** What a [throw] (or a rejected promise) carries. *)
Inductive thrown :=
  | Error (message : string)                        (* new Error(message) *)
  | SyntaxError                                     (* JSON.parse on a malformed text *)
  | TypeError                                       (* property read on undefined or null *)
  | StatusCodeError (statusCode : Z) (body : string) (* request-promise: non-2xx answer; reason.response.body *)
  | RequestError (cause : string).                  (* request-promise: no answer at all; reason.response is undefined *)

(** Outcome of a synchronous piece of code. *)
Inductive completion (A : Type) :=
  | Normal (a : A)
  | Abrupt (e : thrown).
Arguments Normal {A} a.
Arguments Abrupt {A} e.

(** A settled promise. *)
Inductive promise (A : Type) :=
  | Fulfilled (a : A)
  | Rejected (reason : thrown).
Arguments Fulfilled {A} a.
Arguments Rejected {A} reason.

#[global] Instance completion_ret : MRet completion := @Normal.
#[global] Instance completion_bind : MBind completion := λ A B f c,
  match c with
  | Normal a => f a
  | Abrupt e => Abrupt e
  end.

(** [p.then(f)] and [p.catch(f)]: a callback that throws rejects the result. *)
Definition settle {A} (c : completion A) : promise A :=
  match c with
  | Normal a => Fulfilled a
  | Abrupt e => Rejected e
  end.

Definition promise_then {A B} (p : promise A) (f : A → completion B) : promise B :=
  match p with
  | Fulfilled a => settle (f a)
  | Rejected r => Rejected r
  end.

Definition promise_catch {A} (p : promise A) (f : thrown → completion A) : promise A :=
  match p with
  | Fulfilled a => Fulfilled a
  | Rejected r => settle (f r)
  end.

(** ** HTTP requests, as handed to the request library *)

Inductive http_method := GET | POST.

Record http_request := {
  method : http_method;
  url : string;
  qs : option obj;         (* the [qs] option: contents of the object at the call *)
  formData : option obj    (* the [formData] option *)
}.

(** ** Module state: the two globals, the heap, the requests issued so far
    and the read streams created so far *)

Record store := {
  apiKey : option string;   (* None is undefined *)
  baseUrl : string;
  heap : list obj;
  issued : list http_request;
  opened : list string      (* the paths given to fs.createReadStream, in order *)
}.

Definition initial (h : list obj) : store :=
  {| apiKey := None; baseUrl := "https://api.crowdin.com"; heap := h; issued := [];
     opened := [] |}.

Definition with_heap (h : list obj) (s : store) : store :=
  {| apiKey := apiKey s; baseUrl := baseUrl s; heap := h; issued := issued s;
     opened := opened s |}.

Definition with_issued (l : list http_request) (s : store) : store :=
  {| apiKey := apiKey s; baseUrl := baseUrl s; heap := heap s; issued := l;
     opened := opened s |}.

Definition with_opened (l : list string) (s : store) : store :=
  {| apiKey := apiKey s; baseUrl := baseUrl s; heap := heap s; issued := issued s;
     opened := l |}.

(** ** The monad of module code: state and exceptions *)

Definition M (A : Type) : Type := store → completion A * store.

#[global] Instance M_ret : MRet M := λ A a s, (Normal a, s).
#[global] Instance M_bind : MBind M := λ A B f m s,
  match m s with
  | (Normal a, s') => f a s'
  | (Abrupt e, s') => (Abrupt e, s')
  end.

Definition throw {A} (e : thrown) : M A := λ s, (Abrupt e, s).
Definition gets {A} (f : store → A) : M A := λ s, (Normal (f s), s).
Definition modify (f : store → store) : M unit := λ s, (Normal tt, f s).

(** [{ ... }]: a new object. *)
Definition new_object (o : obj) : M loc :=
  λ s, (Normal (length (heap s)), with_heap (heap s ++ [o]) s).

(** Contents of an object; a call never holds a reference outside the heap. *)
Definition contents (l : loc) : M obj :=
  gets (λ s, default ∅ (heap s !! l)).

(** [o[k] = v]. *)
Definition set_prop (l : loc) (k : string) (v : value) : M unit :=
  modify (λ s, with_heap (alter (insert k v) l (heap s)) s).

(** [x || {}] for [x] an object or undefined. *)
Definition or_new (x : option loc) : M loc :=
  match x with
  | Some l => mret l
  | None => new_object ∅
  end.

(** Node's [util._extend(origin, add)]: when [add] is an object, copy each of
    its properties onto [origin], in place; return [origin]. *)
Definition extend (origin : loc) (add : option loc) : M loc :=
  match add with
  | None => mret origin
  | Some a =>
      props ← contents a;
      modify (λ s, with_heap (alter (λ o, props ∪ o) origin (heap s)) s);;
      mret origin
  end.

(** [fs.createReadStream(path)]: a new stream on [path].  The stream exists
    from here on, and opens its file on its own, whatever happens to the call
    that made it. *)
Definition createReadStream (path : string) : M value :=
  λ s, (Normal (VStream path), with_opened (opened s ++ [path]) s).

Fixpoint forEach {A} (l : list A) (f : A → M unit) : M unit :=
  match l with
  | [] => mret tt
  | x :: l' => f x;; forEach l' f
  end.

Set Warnings "-register-all".

Section Client.

(** ** Parsed JSON *)

(** JavaScript numbers are floating point; only their printing matters here. *)
Variable number : Type.

Inductive json :=
  | JNull
  | JBool (b : bool)
  | JNumber (n : number)
  | JString (s : string)
  | JArray (items : list json)
  | JObject (fields : list (string * json)).

Variable number_to_string : number → string.

(** Own property [name] of a parsed object ([JSON.parse] keeps one value
    per name). *)
Fixpoint assoc (name : string) (fields : list (string * json)) : option json :=
  match fields with
  | [] => None
  | (k, v) :: rest => if decide (k = name) then Some v else assoc name rest
  end.

(** [x.name] for [name] one of error, code, message; [None] is undefined.
    Reading a property of undefined or null is a TypeError; the other
    primitives and arrays have no property of these names. *)
Definition get_prop (x : option json) (name : string) : completion (option json) :=
  match x with
  | None | Some JNull => Abrupt TypeError
  | Some (JObject fields) => Normal (assoc name fields)
  | Some _ => Normal None
  end.

(** The string that ['...' + x] appends; [None] when the conversion throws
    (always a TypeError).  A parsed object has no function among its
    properties: with a property [toString] of its own it cannot be converted,
    without one it is printed by [Object.prototype.toString].  An array is
    the join of its items, null printed as the empty string. *)
Fixpoint to_string (x : json) : option string :=
  match x with
  | JNull => Some "null"
  | JBool true => Some "true"
  | JBool false => Some "false"
  | JNumber n => Some (number_to_string n)
  | JString s => Some s
  | JArray items =>
      String.concat "," <$>
        (fix join (l : list json) : option (list string) :=
           match l with
           | [] => Some []
           | i :: l' =>
               match (match i with JNull => Some "" | _ => to_string i end) with
               | Some part =>
                   match join l' with
                   | Some parts => Some (part :: parts)
                   | None => None
                   end
               | None => None
               end
           end) items
  | JObject fields =>
      match assoc "toString" fields with
      | Some _ => None
      | None => Some "[object Object]"
      end
  end.

Definition ToString (x : option json) : completion string :=
  match x with
  | None => Normal "undefined"
  | Some j =>
      match to_string j with
      | Some text => Normal text
      | None => Abrupt TypeError
      end
  end.

(** [throwError(result)], lines 16-18.  It never returns. *)
Definition throwError {A} (result : json) : completion A :=
  error ← get_prop (Some result) "error";
  code ← get_prop error "code";
  code_text ← ToString code;
  error ← get_prop (Some result) "error";
  message ← get_prop error "message";
  message_text ← ToString message;
  Abrupt (Error ("Error code " +:+ code_text +:+ ": " +:+ message_text)).

Variable JSON_parse : string → option json.

(** [JSON.parse(text)]: a SyntaxError on a malformed text. *)
Definition JSON_parse_or_throw (text : string) : completion json :=
  match JSON_parse text with
  | Some j => Normal j
  | None => Abrupt SyntaxError
  end.

(** [result.response.body] for a caught [result]: only the library's
    StatusCodeError has a [response]. *)
Definition response_body (result : thrown) : completion string :=
  match result with
  | StatusCodeError _ body => Normal body
  | _ => Abrupt TypeError
  end.

(** [handleRequest(request)], lines 20-38.  The test of [result.success] is
    commented out in the source: the second [then] returns its argument. *)
Definition handleRequest (request : promise string) : promise json :=
  promise_catch
    (promise_then
       (promise_then request (λ body, JSON_parse_or_throw body))
       (λ result, Normal result))
    (λ result,
       body ← response_body result;
       (if decide (body = "") then mret tt
        else parsed ← JSON_parse_or_throw body; throwError parsed);;
       Abrupt result).

(** ** The private helpers *)

(** The HTTP library: how the promise of a request settles.  [issued]
    records the requests handed to the library; the statements that speak of
    an answer assume it ([http r = ...]), the others speak of the request
    handed over. *)
Variable http : http_request → promise string.

Definition send (r : http_request) : M (promise string) :=
  λ s, (Normal (http r), with_issued (issued s ++ [r]) s).

(** [validateKey()], lines 10-14. *)
Definition validateKey : M unit :=
  key ← gets apiKey;
  match key with
  | None => throw (Error "Please specify CrowdIn API key.")
  | Some _ => mret tt
  end.

(** The value and the text of the variable [apiKey]. *)
Definition key_value (key : option string) : value :=
  match key with
  | Some k => VStr k
  | None => VUndefined
  end.

Definition key_text (key : option string) : string :=
  match key with
  | Some k => k
  | None => "undefined"
  end.

(** [getApiCall(apiUrl)], lines 40-53. *)
Definition getApiCall (apiUrl : string) : M (promise json) :=
  validateKey;;
  base ← gets baseUrl;
  key ← gets apiKey;
  let url := base +:+ "/api/" +:+ apiUrl in
  params ← new_object {[ "json" := VBool true; "key" := key_value key ]};
  qs ← contents params;
  response ← send {| method := GET; url := url; qs := Some qs; formData := None |};
  mret (handleRequest response).

(** [postApiCall(apiUrl, getOptions, postOptions)], lines 55-69. *)
Definition postApiCall (apiUrl : string) (getOptions postOptions : option loc)
  : M (promise json) :=
  validateKey;;
  base ← gets baseUrl;
  key ← gets apiKey;
  let url := base +:+ "/api/" +:+ apiUrl in
  origin ← or_new getOptions;
  add ← new_object {[ "json" := VBool true; "key" := key_value key ]};
  params ← extend origin (Some add);
  qs ← contents params;
  form ← or_new postOptions;
  formData ← contents form;
  response ← send {| method := POST; url := url; qs := Some qs; formData := Some formData |};
  mret (handleRequest response).

(** [getApiRequest(apiUrl)], lines 71-77. *)
Definition getApiRequest (apiUrl : string) : M (promise string) :=
  validateKey;;
  base ← gets baseUrl;
  key ← gets apiKey;
  let url := base +:+ "/api/" +:+ apiUrl +:+ "?key=" +:+ key_text key +:+ "&json" in
  send {| method := GET; url := url; qs := None; formData := None |}.


(** ** The exported functions, lines 79-278 *)

Definition setBasePath (newBasePath : string) : M unit :=
  modify (λ s, {| apiKey := apiKey s; baseUrl := newBasePath;
                  heap := heap s; issued := issued s; opened := opened s |}).

Definition setKey (newKey : string) : M unit :=
  modify (λ s, {| apiKey := Some newKey; baseUrl := baseUrl s;
                  heap := heap s; issued := issued s; opened := opened s |}).

(** The loop shared by addFile, updateFile and updateTranslations:
    [filesInformation['files[' + fileName + ']'] = fs.createReadStream(fileName)]. *)
Definition add_streams (filesInformation : loc) (files : list string) : M unit :=
  forEach files (λ fileName,
    let index := "files[" +:+ fileName +:+ "]" in
    stream ← createReadStream fileName;
    set_prop filesInformation index stream).

Definition addFile (projectName : string) (files : list string) (params : option loc)
  : M (promise json) :=
  filesInformation ← new_object ∅;
  add_streams filesInformation files;;
  getOptions ← new_object ∅;
  postOptions ← extend filesInformation params;
  postApiCall ("project/" +:+ projectName +:+ "/add-file") (Some getOptions) (Some postOptions).

Definition updateFile (projectName : string) (files : list string) (params : option loc)
  : M (promise json) :=
  filesInformation ← new_object ∅;
  add_streams filesInformation files;;
  getOptions ← new_object ∅;
  postOptions ← extend filesInformation params;
  postApiCall ("project/" +:+ projectName +:+ "/update-file") (Some getOptions) (Some postOptions).

Definition deleteFile (projectName fileName : string) : M (promise json) :=
  getOptions ← new_object ∅;
  postOptions ← new_object {[ "file" := VStr fileName ]};
  postApiCall ("project/" +:+ projectName +:+ "/delete-file") (Some getOptions) (Some postOptions).

Definition updateTranslations (projectName : string) (files : list string)
    (language : string) (params : option loc) : M (promise json) :=
  filesInformation ← new_object {[ "language" := VStr language ]};
  add_streams filesInformation files;;
  getOptions ← new_object ∅;
  postOptions ← extend filesInformation params;
  postApiCall ("project/" +:+ projectName +:+ "/upload-translation") (Some getOptions) (Some postOptions).

Definition translationStatus (projectName : string) : M (promise json) :=
  postApiCall ("project/" +:+ projectName +:+ "/status") None None.

Definition projectInfo (projectName : string) : M (promise json) :=
  postApiCall ("project/" +:+ projectName +:+ "/info") None None.

Definition downloadTranslations (projectName languageCode : string) : M (promise string) :=
  getApiRequest ("project/" +:+ projectName +:+ "/download/" +:+ languageCode +:+ ".zip").

Definition downloadAllTranslations (projectName : string) : M (promise string) :=
  getApiRequest ("project/" +:+ projectName +:+ "/download/all.zip").

Definition exportTranslations (projectName : string) : M (promise json) :=
  getApiCall ("project/" +:+ projectName +:+ "/export").

Definition editProject (projectName : string) (params : option loc) : M (promise json) :=
  getOptions ← new_object ∅;
  postApiCall ("project/" +:+ projectName +:+ "/edit-project") (Some getOptions) params.

Definition deleteProject (projectName : string) : M (promise json) :=
  postApiCall ("project/" +:+ projectName +:+ "/delete-project") None None.

Definition createDirectory (projectName directory : string) (params : option loc)
  : M (promise json) :=
  postOptions ← new_object {[ "name" := VStr directory ]};
  postApiCall ("project/" +:+ projectName +:+ "/add-directory") params (Some postOptions).

(** [params] is handed to [postApiCall] as a fourth argument, which
    [postApiCall] does not have. *)
Definition changeDirectory (projectName directory : string) (params : option loc)
  : M (promise json) :=
  getOptions ← new_object ∅;
  postOptions ← new_object {[ "name" := VStr directory ]};
  postApiCall ("project/" +:+ projectName +:+ "/change-directory") (Some getOptions) (Some postOptions).

Definition deleteDirectory (projectName directory : string) : M (promise json) :=
  getOptions ← new_object ∅;
  postOptions ← new_object {[ "name" := VStr directory ]};
  postApiCall ("project/" +:+ projectName +:+ "/delete-directory") (Some getOptions) (Some postOptions).

Definition downloadGlossary (projectName : string) : M (promise string) :=
  getApiRequest ("project/" +:+ projectName +:+ "/download-glossary").

(** [typeof fileNameOrStream === 'string'] turns a name into a stream. *)
Definition as_stream (fileNameOrStream : value) : M value :=
  match fileNameOrStream with
  | VStr name => createReadStream name
  | other => mret other
  end.

Definition uploadGlossary (projectName : string) (fileNameOrStream : value)
  : M (promise json) :=
  file ← as_stream fileNameOrStream;
  getOptions ← new_object ∅;
  postOptions ← new_object {[ "file" := file ]};
  postApiCall ("project/" +:+ projectName +:+ "/upload-glossary") (Some getOptions) (Some postOptions).

Definition downloadTranslationMemory (projectName : string) : M (promise json) :=
  postApiCall ("project/" +:+ projectName +:+ "/download-tm") None None.

Definition uploadTranslationMemory (projectName : string) (fileNameOrStream : value)
  : M (promise json) :=
  file ← as_stream fileNameOrStream;
  getOptions ← new_object ∅;
  postOptions ← new_object {[ "file" := file ]};
  postApiCall ("project/" +:+ projectName +:+ "/upload-tm") (Some getOptions) (Some postOptions).

Definition supportedLanguages : M (promise json) :=
  getApiCall "supported-languages".

(** ** One type for all the calls of the public interface *)

(** What the promise of a call is fulfilled with: a parsed body for the
    functions that go through [handleRequest], the body as received for the
    ones that return the promise of [getApiRequest]. *)
Inductive answer :=
  | Parsed (result : json)
  | Raw (body : string).

Definition promise_map {A B} (f : A → B) (p : promise A) : promise B :=
  match p with
  | Fulfilled a => Fulfilled (f a)
  | Rejected r => Rejected r
  end.

Inductive call :=
  | AddFile (projectName : string) (files : list string) (params : option loc)
  | UpdateFile (projectName : string) (files : list string) (params : option loc)
  | DeleteFile (projectName fileName : string)
  | UpdateTranslations (projectName : string) (files : list string)
      (language : string) (params : option loc)
  | TranslationStatus (projectName : string)
  | ProjectInfo (projectName : string)
  | DownloadTranslations (projectName languageCode : string)
  | DownloadAllTranslations (projectName : string)
  | ExportTranslations (projectName : string)
  | EditProject (projectName : string) (params : option loc)
  | DeleteProject (projectName : string)
  | CreateDirectory (projectName directory : string) (params : option loc)
  | ChangeDirectory (projectName directory : string) (params : option loc)
  | DeleteDirectory (projectName directory : string)
  | DownloadGlossary (projectName : string)
  | UploadGlossary (projectName : string) (fileNameOrStream : value)
  | DownloadTranslationMemory (projectName : string)
  | UploadTranslationMemory (projectName : string) (fileNameOrStream : value)
  | SupportedLanguages.

Definition parsed (m : M (promise json)) : M (promise answer) :=
  p ← m; mret (promise_map Parsed p).

Definition raw (m : M (promise string)) : M (promise answer) :=
  p ← m; mret (promise_map Raw p).

Definition invoke (c : call) : M (promise answer) :=
  match c with
  | AddFile p files params => parsed (addFile p files params)
  | UpdateFile p files params => parsed (updateFile p files params)
  | DeleteFile p f => parsed (deleteFile p f)
  | UpdateTranslations p files language params =>
      parsed (updateTranslations p files language params)
  | TranslationStatus p => parsed (translationStatus p)
  | ProjectInfo p => parsed (projectInfo p)
  | DownloadTranslations p code => raw (downloadTranslations p code)
  | DownloadAllTranslations p => raw (downloadAllTranslations p)
  | ExportTranslations p => parsed (exportTranslations p)
  | EditProject p params => parsed (editProject p params)
  | DeleteProject p => parsed (deleteProject p)
  | CreateDirectory p d params => parsed (createDirectory p d params)
  | ChangeDirectory p d params => parsed (changeDirectory p d params)
  | DeleteDirectory p d => parsed (deleteDirectory p d)
  | DownloadGlossary p => raw (downloadGlossary p)
  | UploadGlossary p f => parsed (uploadGlossary p f)
  | DownloadTranslationMemory p => parsed (downloadTranslationMemory p)
  | UploadTranslationMemory p f => parsed (uploadTranslationMemory p f)
  | SupportedLanguages => parsed supportedLanguages
  end.

(** ** Reading a call: what the statements below talk about *)

(** The private helper a public function hands its request to. *)
Inductive helper := ViaGetApiCall | ViaPostApiCall | ViaGetApiRequest.

Definition route (c : call) : helper :=
  match c with
  | DownloadTranslations _ _ | DownloadAllTranslations _ | DownloadGlossary _ =>
      ViaGetApiRequest
  | ExportTranslations _ | SupportedLanguages => ViaGetApiCall
  | _ => ViaPostApiCall
  end.

(** The endpoint path of each operation. *)
Definition endpoint (c : call) : string :=
  match c with
  | AddFile p _ _ => "project/" +:+ p +:+ "/add-file"
  | UpdateFile p _ _ => "project/" +:+ p +:+ "/update-file"
  | DeleteFile p _ => "project/" +:+ p +:+ "/delete-file"
  | UpdateTranslations p _ _ _ => "project/" +:+ p +:+ "/upload-translation"
  | TranslationStatus p => "project/" +:+ p +:+ "/status"
  | ProjectInfo p => "project/" +:+ p +:+ "/info"
  | DownloadTranslations p code => "project/" +:+ p +:+ "/download/" +:+ code +:+ ".zip"
  | DownloadAllTranslations p => "project/" +:+ p +:+ "/download/all.zip"
  | ExportTranslations p => "project/" +:+ p +:+ "/export"
  | EditProject p _ => "project/" +:+ p +:+ "/edit-project"
  | DeleteProject p => "project/" +:+ p +:+ "/delete-project"
  | CreateDirectory p _ _ => "project/" +:+ p +:+ "/add-directory"
  | ChangeDirectory p _ _ => "project/" +:+ p +:+ "/change-directory"
  | DeleteDirectory p _ => "project/" +:+ p +:+ "/delete-directory"
  | DownloadGlossary p => "project/" +:+ p +:+ "/download-glossary"
  | UploadGlossary p _ => "project/" +:+ p +:+ "/upload-glossary"
  | DownloadTranslationMemory p => "project/" +:+ p +:+ "/download-tm"
  | UploadTranslationMemory p _ => "project/" +:+ p +:+ "/upload-tm"
  | SupportedLanguages => "supported-languages"
  end.

(** The [params] object of a call, when it has one. *)
Definition params_of (c : call) : option loc :=
  match c with
  | AddFile _ _ params | UpdateFile _ _ params | UpdateTranslations _ _ _ params
  | EditProject _ params | CreateDirectory _ _ params | ChangeDirectory _ _ params =>
      params
  | _ => None
  end.

(** The caller passes references to objects that exist. *)
Definition allocated (h : list obj) (x : option loc) : Prop :=
  ∀ l, x = Some l → l < length h.

Definition stored (h : list obj) (x : option loc) : obj :=
  match x with
  | Some l => default ∅ (h !! l)
  | None => ∅
  end.

(** [{ json: true, key: apiKey }] once the key is [k]. *)
Definition credentials (k : string) : obj :=
  {[ "json" := VBool true; "key" := VStr k ]}.

Definition streams (files : list string) (init : obj) : obj :=
  foldl (λ o fileName, <[ "files[" +:+ fileName +:+ "]" := VStream fileName ]> o) init files.

Definition stream_of (fileNameOrStream : value) : value :=
  match fileNameOrStream with
  | VStr name => VStream name
  | other => other
  end.

(** The fields of the form body of a call, read in the heap [h] of the caller. *)
Definition form_of (h : list obj) (c : call) : obj :=
  match c with
  | AddFile _ files params | UpdateFile _ files params =>
      stored h params ∪ streams files ∅
  | UpdateTranslations _ files language params =>
      stored h params ∪ streams files {[ "language" := VStr language ]}
  | DeleteFile _ fileName => {[ "file" := VStr fileName ]}
  | EditProject _ params => stored h params
  | CreateDirectory _ d _ | ChangeDirectory _ d _ | DeleteDirectory _ d =>
      {[ "name" := VStr d ]}
  | UploadGlossary _ f | UploadTranslationMemory _ f => {[ "file" := stream_of f ]}
  | _ => ∅
  end.

(** The object a call hands to [postApiCall] as [getOptions], when it is
    an object of the caller. *)
Definition query_object (c : call) : option loc :=
  match c with
  | CreateDirectory _ _ params => params
  | _ => None
  end.

(** The properties a call brings to the query string besides the credentials. *)
Definition query_of (h : list obj) (c : call) : obj :=
  stored h (query_object c).

(** The request of a call under key [k] and base URL [base]. *)
Definition request_of (k base : string) (h : list obj) (c : call) : http_request :=
  match route c with
  | ViaGetApiCall =>
      {| method := GET; url := base +:+ "/api/" +:+ endpoint c;
         qs := Some (credentials k); formData := None |}
  | ViaPostApiCall =>
      {| method := POST; url := base +:+ "/api/" +:+ endpoint c;
         qs := Some (credentials k ∪ query_of h c); formData := Some (form_of h c) |}
  | ViaGetApiRequest =>
      {| method := GET;
         url := base +:+ "/api/" +:+ endpoint c +:+ "?key=" +:+ k +:+ "&json";
         qs := None; formData := None |}
  end.

(** How the promise of a call settles once the HTTP library has settled. *)
Definition settled (c : call) (response : promise string) : promise answer :=
  match route c with
  | ViaGetApiRequest => promise_map Raw response
  | _ => promise_map Parsed (handleRequest response)
  end.

(** The read streams a call creates: one for each file name it is given. *)
Definition streams_created (c : call) : list string :=
  match c with
  | AddFile _ files _ | UpdateFile _ files _ | UpdateTranslations _ files _ _ => files
  | UploadGlossary _ (VStr name) | UploadTranslationMemory _ (VStr name) => [name]
  | _ => []
  end.

(** The shape of the vendor's error answer:
    [{ error: { code: ..., message: ... } }]. *)
Definition error_envelope (j code message : json) : Prop :=
  match j with
  | JObject fields =>
      match assoc "error" fields with
      | Some (JObject err) =>
          assoc "code" err = Some code ∧ assoc "message" err = Some message
      | _ => False
      end
  | _ => False
  end.

End Client.

Arguments JNull {number}.
Arguments JBool {number} b.
Arguments JNumber {number} n.
Arguments JString {number} s.
Arguments JArray {number} items.
Arguments JObject {number} fields.
Arguments Parsed {number} result.
Arguments Raw {number} body.
Arguments assoc {number} name fields.
Arguments get_prop {number} x name.
Arguments to_string {number} number_to_string x.
Arguments ToString {number} number_to_string x.
Arguments throwError {number} number_to_string {A} result.
Arguments JSON_parse_or_throw {number} JSON_parse text.
Arguments handleRequest {number} number_to_string JSON_parse request.
Arguments getApiCall {number} number_to_string JSON_parse http apiUrl.
Arguments postApiCall {number} number_to_string JSON_parse http apiUrl getOptions postOptions.
Arguments invoke {number} number_to_string JSON_parse http c.
Arguments settled {number} number_to_string JSON_parse c response.
Arguments error_envelope {number} j code message.

(** ** The query string of an address, as its receiver reads it *)

(** The text before the first [c], and the text after it when [c] occurs. *)
Fixpoint cut (c : Ascii.ascii) (s : string) : string * option string :=
  match s with
  | EmptyString => (EmptyString, None)
  | String x rest =>
      if decide (x = c) then (EmptyString, Some rest)
      else match cut c rest with
           | (before, after) => (String x before, after)
           end
  end.

(** The pieces of [s] between the occurrences of [c]. *)
Fixpoint pieces (c : Ascii.ascii) (s : string) : list string :=
  match s with
  | EmptyString => [EmptyString]
  | String x rest =>
      if decide (x = c) then EmptyString :: pieces c rest
      else match pieces c rest with
           | piece :: others => String x piece :: others
           | [] => [String x EmptyString]
           end
  end.

(** An address ends at its first [#]; its query is what follows the first
    [?] before that.  The fields of the query are separated by [&], and a
    field is a name, or a name, [=] and a value.
    [query_parameter name address] is the value of the first field called
    [name], as written (nothing is decoded). *)
Definition query_parameter (name address : string) : option string :=
  match (cut (Ascii.ascii_of_nat 63) (cut (Ascii.ascii_of_nat 35) address).1).2 with
  | None => None
  | Some query =>
      match list_find (λ field, (cut (Ascii.ascii_of_nat 61) field).1 = name)
              (pieces (Ascii.ascii_of_nat 38) query) with
      | Some (_, field) => Some (default "" (cut (Ascii.ascii_of_nat 61) field).2)
      | None => None
      end
  end.

(** ** Sample answers of the vendor, for the examples *)

Definition quoted (s : string) : string :=
  let mark := String (Ascii.ascii_of_nat 34) "" in mark +:+ s +:+ mark.

(** The text [{"error":{"code":3,"message":"API key is not valid"}}]. *)
Definition error_text : string :=
  "{" +:+ quoted "error" +:+ ":{" +:+ quoted "code" +:+ ":3," +:+
  quoted "message" +:+ ":" +:+ quoted "API key is not valid" +:+ "}}".

Definition error_value : json Z :=
  JObject [("error", JObject [("code", JNumber 3%Z);
                             ("message", JString "API key is not valid")])].

(** The text [{"success":true}]. *)
Definition success_text : string :=
  "{" +:+ quoted "success" +:+ ":true}".

Definition success_value : json Z :=
  JObject [("success", JBool true)].

(** [JSON.parse] on the two sample texts (no other text is used below). *)
Definition sample_parse (text : string) : option (json Z) :=
  if decide (text = error_text) then Some error_value
  else if decide (text = success_text) then Some success_value
  else None.

Definition print_Z : Z → string := pretty.

(** A server that answers every request alike. *)
Definition always (response : promise string) : http_request → promise string :=
  λ _, response.

(** The module after [setKey(k)], with the caller's objects [h]. *)
Definition configured (k : string) (h : list obj) : store :=
  (setKey k (initial h)).2.

(** The text [{"error":{"message":"Not found"}}]: an envelope without a code. *)
Definition not_found_text : string :=
  "{" +:+ quoted "error" +:+ ":{" +:+ quoted "message" +:+ ":" +:+
  quoted "Not found" +:+ "}}".

Definition not_found_value : json Z :=
  JObject [("error", JObject [("message", JString "Not found")])].

(** [JSON.parse] on the three sample texts. *)
Definition sample_parse_more (text : string) : option (json Z) :=
  if decide (text = not_found_text) then Some not_found_value
  else sample_parse text.

(** * Properties *)

(** ** New objects and old ones in the heap *)

Lemma lookup_old (h t : list obj) l : l < length h → (h ++ t) !! l = h !! l.
Proof. apply lookup_app_l. Qed.

Lemma lookup_new (h t : list obj) i : (h ++ t) !! (length h + i) = t !! i.
Proof. rewrite lookup_app_r by lia. f_equal. lia. Qed.

Lemma lookup_new0 (h t : list obj) : (h ++ t) !! length h = t !! 0.
Proof. rewrite <- (lookup_new h t 0). f_equal. lia. Qed.

Lemma alter_new0 (f : obj → obj) (h t : list obj) :
  alter f (length h) (h ++ t) = h ++ alter f 0 t.
Proof. rewrite <- alter_app_r. f_equal. lia. Qed.

Lemma lookup_altered (f : obj → obj) (h : list obj) l :
  l < length h → alter f l h !! l = Some (f (default ∅ (h !! l))).
Proof.
  intros Hl. rewrite list_lookup_alter_eq.
  destruct (lookup_lt_is_Some_2 h l Hl) as [o Ho]. by rewrite Ho.
Qed.

Ltac step :=
  unfold mbind, M_bind, mret, M_ret, gets, modify, throw, new_object,
    contents, set_prop, or_new, extend, send, createReadStream, with_heap, with_issued,
    with_opened;
  simpl.

Ltac heap_norm :=
  repeat first
    [ rewrite <- app_assoc
    | rewrite length_app
    | rewrite lookup_new
    | rewrite lookup_new0
    | rewrite alter_app_r
    | rewrite alter_new0
    | rewrite lookup_old by (simpl; lia)
    | rewrite lookup_altered by (rewrite ?length_app; simpl; lia)
    | rewrite list_lookup_alter_ne by (lia || congruence)
    | progress simpl ].

Ltac unfold_settled := unfold settled.

Ltac unfold_handleRequest := unfold handleRequest, JSON_parse_or_throw.

Ltac unfold_call :=
  unfold parsed, raw, addFile, updateFile, deleteFile, updateTranslations,
    translationStatus, projectInfo, downloadTranslations, downloadAllTranslations,
    exportTranslations, editProject, deleteProject, createDirectory, changeDirectory,
    deleteDirectory, downloadGlossary, uploadGlossary, downloadTranslationMemory,
    uploadTranslationMemory, supportedLanguages, postApiCall, getApiCall, getApiRequest,
    validateKey, as_stream;
  simpl.

(** The loop over [files] creates one stream for each name, writes into
    [filesInformation] and nowhere else. *)
Lemma add_streams_run l files s :
  add_streams l files s =
    (Normal tt,
     with_opened (opened s ++ files) (with_heap (alter (streams files) l (heap s)) s)).
Proof.
  revert s. induction files as [|fileName files IH]; intros [key base h iss op].
  - unfold add_streams; simpl. step. by rewrite list_alter_id, app_nil_r.
  - unfold add_streams in *; simpl. step.
    unfold mbind, M_bind in IH. rewrite IH. unfold with_heap, with_opened; simpl.
    by rewrite list_alter_alter_eq, <- app_assoc.
Qed.

Lemma request_of_ext k base h1 h2 c :
  stored h1 (params_of c) = stored h2 (params_of c) →
  request_of k base h1 c = request_of k base h2 c.
Proof.
  intros E. unfold request_of, query_of.
  destruct c; simpl in *; rewrite ?E; reflexivity.
Qed.

Lemma credentials_key k : credentials k !! "key" = Some (VStr k).
Proof. done. Qed.

Lemma credentials_json k : credentials k !! "json" = Some (VBool true).
Proof. done. Qed.

Section Properties.

Context {number : Type}.
Variable number_to_string : number → string.
Variable JSON_parse : string → option (json number).
Variable http : http_request → promise string.

Local Abbreviation invoke := (invoke number_to_string JSON_parse http).
Local Abbreviation settled := (settled number_to_string JSON_parse).
Local Abbreviation handleRequest := (handleRequest number_to_string JSON_parse).
Local Abbreviation ToString := (ToString number_to_string).

(** ** What a call does, once and for all *)

(** Without a key: the error of [validateKey], no request, the objects of
    the caller as they were, and the streams made on the way. *)
Lemma invoke_without_key c s :
  apiKey s = None →
  ∃ h',
    invoke c s =
      (Abrupt (Error "Please specify CrowdIn API key."),
       {| apiKey := None; baseUrl := baseUrl s; heap := h'; issued := issued s;
          opened := opened s ++ streams_created c |}) ∧
    ∀ l, l < length (heap s) → h' !! l = heap s !! l.
Proof.
  intros Hk. destruct s as [key base h iss op]; simpl in *; subst key.
  destruct c; simpl; unfold_call.
  all: try destruct fileNameOrStream.
  all: step; rewrite ?add_streams_run; step.
  all: try destruct params.
  all: step; rewrite ?app_nil_r.
  all: eexists; (split; [reflexivity|]); intros; heap_norm; done.
Qed.

(** With a key: a promise, and exactly one request. *)
Lemma invoke_with_key c s k :
  apiKey s = Some k →
  ∃ p r h',
    invoke c s =
      (Normal p,
       {| apiKey := Some k; baseUrl := baseUrl s; heap := h';
          issued := issued s ++ [r]; opened := opened s ++ streams_created c |}).
Proof.
  intros Hk. destruct s as [key base h iss op]; simpl in *; subst key.
  destruct c; simpl; unfold_call.
  all: try destruct fileNameOrStream.
  all: step; rewrite ?add_streams_run; step.
  all: try destruct params.
  all: step; rewrite ?app_nil_r; do 3 eexists; reflexivity.
Qed.

(** With a key and a [params] object that exists: the request, the promise
    and the heap. *)
Lemma invoke_spec c s k :
  apiKey s = Some k →
  allocated (heap s) (params_of c) →
  let r := request_of k (baseUrl s) (heap s) c in
  ∃ h',
    invoke c s =
      (Normal (settled c (http r)),
       {| apiKey := Some k; baseUrl := baseUrl s; heap := h';
          issued := issued s ++ [r]; opened := opened s ++ streams_created c |}) ∧
    length (heap s) ≤ length h' ∧
    (∀ l, l < length (heap s) → query_object c ≠ Some l → h' !! l = heap s !! l) ∧
    (∀ l, query_object c = Some l →
          h' !! l = Some (credentials k ∪ stored (heap s) (Some l))).
Proof.
  intros Hk Hp. destruct s as [key base h iss op]; simpl in *; subst key.
  destruct c; simpl in *; unfold_call;
    unfold request_of, query_of, credentials; unfold_settled; simpl.
  all: try (destruct params as [a|]; [specialize (Hp a eq_refl)|]).
  all: try destruct fileNameOrStream.
  all: step; rewrite ?add_streams_run; step; heap_norm.
  all: rewrite ?(left_id_L ∅ (∪)), ?app_nil_r.
  all: eexists; split; [reflexivity|]; split; [|split].
  all: try (rewrite ?length_alter, ?length_app; simpl; lia).
  all: try (intros; heap_norm; done).
  all: try (intros ? [= <-]; heap_norm; done).
Qed.

(** ** [handleRequest] on each way the HTTP promise can settle *)

Lemma handleRequest_fulfilled body :
  handleRequest (Fulfilled body) =
    match JSON_parse body with
    | Some j => Fulfilled j
    | None => Rejected TypeError
    end.
Proof.
  unfold_handleRequest; simpl.
  by destruct (JSON_parse body).
Qed.

Lemma throwError_envelope {A} j code message code_text message_text :
  error_envelope j code message →
  to_string number_to_string code = Some code_text →
  to_string number_to_string message = Some message_text →
  throwError number_to_string (A := A) j =
    Abrupt (Error ("Error code " +:+ code_text +:+ ": " +:+ message_text)).
Proof.
  unfold error_envelope, throwError. destruct j as [| | | | |fields]; try done.
  simpl. destruct (assoc "error" fields) as [[| | | | |err]|]; try done.
  simpl. intros [-> ->] Hcode Hmessage. simpl. by rewrite Hcode, Hmessage.
Qed.

Lemma handleRequest_status_error status body j code message code_text message_text :
  body ≠ "" →
  JSON_parse body = Some j →
  error_envelope j code message →
  to_string number_to_string code = Some code_text →
  to_string number_to_string message = Some message_text →
  handleRequest (Rejected (StatusCodeError status body)) =
    Rejected (Error ("Error code " +:+ code_text +:+ ": " +:+ message_text)).
Proof.
  intros Hbody Hparse Henv Hcode Hmessage.
  unfold_handleRequest; simpl.
  destruct (decide (body = "")) as [|_]; [done|].
  rewrite Hparse; simpl.
  by rewrite (throwError_envelope _ _ _ _ _ Henv Hcode Hmessage).
Qed.

(** ** The two globals *)

(** C5: the state of the module is the API key and the base URL; [setKey]
    changes the key and nothing else, [setBasePath] changes the base URL and
    nothing else, and no call of another public operation changes either. *)
Theorem globals_change_only_by_setters :
  (∀ newKey s,
     setKey newKey s =
       (Normal tt, {| apiKey := Some newKey; baseUrl := baseUrl s;
                      heap := heap s; issued := issued s; opened := opened s |})) ∧
  (∀ newBasePath s,
     setBasePath newBasePath s =
       (Normal tt, {| apiKey := apiKey s; baseUrl := newBasePath;
                      heap := heap s; issued := issued s; opened := opened s |})) ∧
  (∀ c s,
     apiKey (invoke c s).2 = apiKey s ∧ baseUrl (invoke c s).2 = baseUrl s).
Proof.
  split; [done|]. split; [done|]. intros c s.
  destruct (apiKey s) as [k|] eqn:Hk.
  - destruct (invoke_with_key c s k Hk) as (p & r & h' & E). by rewrite E.
  - destruct (invoke_without_key c s Hk) as (h' & E & _). by rewrite E.
Qed.

(** ** No retry *)

(** C7: one invocation of a public operation issues at most one HTTP request,
    however the HTTP library answers. *)
Theorem at_most_one_request c s :
  ∃ new, issued (invoke c s).2 = issued s ++ new ∧ length new ≤ 1.
Proof.
  destruct (apiKey s) as [k|] eqn:Hk.
  - destruct (invoke_with_key c s k Hk) as (p & r & h' & E).
    exists [r]. rewrite E. split; [done | simpl; lia].
  - destruct (invoke_without_key c s Hk) as (h' & E & _).
    exists []. rewrite E; simpl. split; [by rewrite app_nil_r | lia].
Qed.

(** ** The key must be set *)

(** C8: while the API key is undefined, every public operation throws an
    Error with the message [Please specify CrowdIn API key.], and no HTTP
    request has been issued. *)
Theorem missing_key_throws c s :
  apiKey s = None →
  (invoke c s).1 = Abrupt (Error "Please specify CrowdIn API key.") ∧
  issued (invoke c s).2 = issued s.
Proof.
  intros Hk. destruct (invoke_without_key c s Hk) as (h' & E & _).
  by rewrite E.
Qed.

(** ** Directories *)

(** C9: in [changeDirectory(projectName, directory, params)] the argument
    [params] changes nothing: the call behaves as the call without it, and
    the form body of the request holds the one field [name = directory]. *)
Theorem changeDirectory_ignores_params projectName directory params s k :
  apiKey s = Some k →
  invoke (ChangeDirectory projectName directory params) s =
    invoke (ChangeDirectory projectName directory None) s ∧
  ∃ r,
    issued (invoke (ChangeDirectory projectName directory params) s).2 =
      issued s ++ [r] ∧
    formData r = Some {[ "name" := VStr directory ]} ∧
    qs r = Some (credentials k).
Proof.
  intros Hk. split; [reflexivity|].
  destruct (invoke_spec (ChangeDirectory projectName directory None) s k Hk)
    as (h' & E & _); [by intros ? [=]|].
  change (invoke (ChangeDirectory projectName directory params) s)
    with (invoke (ChangeDirectory projectName directory None) s).
  rewrite E; simpl. eexists; split; [reflexivity|]. split; [done|].
  unfold request_of, query_of; simpl. by rewrite (right_id_L ∅ (∪)).
Qed.

(** C10: in [createDirectory(projectName, directory, params)] with a [params]
    object, the properties of [params] go to the query string, the form body
    holds the one field [name = directory], and the object of the caller is
    written: after the call it holds [json = true] and [key = ] the stored
    key, besides its other properties. *)
Theorem createDirectory_writes_params projectName directory l o s k :
  apiKey s = Some k →
  heap s !! l = Some o →
  let after := credentials k ∪ o in
  ∃ r,
    issued (invoke (CreateDirectory projectName directory (Some l)) s).2 =
      issued s ++ [r] ∧
    qs r = Some after ∧
    formData r = Some {[ "name" := VStr directory ]} ∧
    heap (invoke (CreateDirectory projectName directory (Some l)) s).2 !! l =
      Some after ∧
    after !! "json" = Some (VBool true) ∧
    after !! "key" = Some (VStr k) ∧
    (∀ name, name ≠ "json" → name ≠ "key" → after !! name = o !! name).
Proof.
  intros Hk Ho after.
  destruct (invoke_spec (CreateDirectory projectName directory (Some l)) s k Hk)
    as (h' & E & _ & _ & Hl).
  { intros ? [= <-]. by eapply lookup_lt_Some. }
  specialize (Hl l eq_refl). simpl in Hl. rewrite Ho in Hl; simpl in Hl.
  rewrite E; simpl. eexists; split; [reflexivity|].
  unfold request_of, query_of; simpl. rewrite Ho; simpl.
  repeat split; try done.
  - apply lookup_union_Some_l, credentials_json.
  - apply lookup_union_Some_l, credentials_key.
  - intros name H1 H2. apply lookup_union_r.
    unfold credentials. by rewrite lookup_insert_ne, lookup_singleton_ne.
Qed.

(** ** How the promise of a call settles *)

(** C1, as the code has it: when the HTTP call succeeds, the body is not
    searched for an error envelope.  A body that parses to an envelope is
    returned as the parsed value by the operations that go through
    [handleRequest], and as the text received by the download operations;
    nothing is thrown. *)
Theorem success_returns_envelope c s k body j code message :
  apiKey s = Some k →
  allocated (heap s) (params_of c) →
  http (request_of k (baseUrl s) (heap s) c) = Fulfilled body →
  JSON_parse body = Some j →
  error_envelope j code message →
  (invoke c s).1 =
    Normal (Fulfilled (match route c with
                       | ViaGetApiRequest => Raw body
                       | _ => Parsed j
                       end)).
Proof.
  intros Hk Hp Hhttp Hparse _.
  destruct (invoke_spec c s k Hk Hp) as (h' & E & _).
  rewrite E; simpl. unfold_settled. rewrite Hhttp.
  destruct (route c); simpl; [| |done];
    by rewrite handleRequest_fulfilled, Hparse.
Qed.

(** C2, as the code has it: when the HTTP library fails with an answer whose
    body is not empty and parses to an error envelope whose code and message
    JavaScript can turn into strings, the operations that go through
    [handleRequest] reject with an Error whose message is
    [Error code <code>: <message>]; the download operations, which return the
    promise of [getApiRequest], reject with the failure of the library as it
    is. *)
Theorem failure_with_envelope c s k status body j code message code_text message_text :
  apiKey s = Some k →
  allocated (heap s) (params_of c) →
  http (request_of k (baseUrl s) (heap s) c) = Rejected (StatusCodeError status body) →
  body ≠ "" →
  JSON_parse body = Some j →
  error_envelope j code message →
  to_string number_to_string code = Some code_text →
  to_string number_to_string message = Some message_text →
  (invoke c s).1 =
    Normal (Rejected (match route c with
                      | ViaGetApiRequest => StatusCodeError status body
                      | _ => Error ("Error code " +:+ code_text +:+ ": " +:+ message_text)
                      end)).
Proof.
  intros Hk Hp Hhttp Hbody Hparse Henv Hcode Hmessage.
  destruct (invoke_spec c s k Hk Hp) as (h' & E & _).
  rewrite E; simpl. unfold_settled. rewrite Hhttp.
  destruct (route c); simpl; [| |done];
    by rewrite (handleRequest_status_error _ _ _ _ _ _ _ Hbody Hparse Henv Hcode Hmessage).
Qed.

(** C3, as the code has it: when the HTTP call succeeds, the operations that
    go through [handleRequest] return the parsed body (and reject with a
    TypeError when the body is not JSON: the SyntaxError is caught by the
    handler, which reads [response.body] of it), while [downloadTranslations],
    [downloadAllTranslations] and [downloadGlossary] return the body as
    received, not parsed. *)
Theorem success_returns_body c s k body :
  apiKey s = Some k →
  allocated (heap s) (params_of c) →
  http (request_of k (baseUrl s) (heap s) c) = Fulfilled body →
  (invoke c s).1 =
    Normal (match route c with
            | ViaGetApiRequest => Fulfilled (Raw body)
            | _ => match JSON_parse body with
                   | Some j => Fulfilled (Parsed j)
                   | None => Rejected TypeError
                   end
            end).
Proof.
  intros Hk Hp Hhttp.
  destruct (invoke_spec c s k Hk Hp) as (h' & E & _).
  rewrite E; simpl. unfold_settled. rewrite Hhttp.
  destruct (route c); simpl; [| |done];
    rewrite handleRequest_fulfilled; by destruct (JSON_parse body).
Qed.

(** ** What a call depends on, and what it writes *)

(** C6, as the code has it: the request of a call is a function of its
    arguments, of the properties of its [params] object and of the stored API
    key and base URL: two invocations with the same arguments under the same
    key and base URL issue the same request.  An operation other than
    [createDirectory] with a [params] object writes into no object of the
    caller. *)
Theorem same_configuration_same_request c s1 s2 :
  apiKey s1 = apiKey s2 →
  baseUrl s1 = baseUrl s2 →
  allocated (heap s1) (params_of c) →
  allocated (heap s2) (params_of c) →
  stored (heap s1) (params_of c) = stored (heap s2) (params_of c) →
  (∃ new,
     issued (invoke c s1).2 = issued s1 ++ new ∧
     issued (invoke c s2).2 = issued s2 ++ new) ∧
  (query_object c = None →
   ∀ l, l < length (heap s1) → heap (invoke c s1).2 !! l = heap s1 !! l).
Proof.
  intros Hkey Hbase Hp1 Hp2 Hparams.
  destruct (apiKey s1) as [k|] eqn:Hk1; symmetry in Hkey.
  - destruct (invoke_spec c s1 k Hk1 Hp1) as (h1 & E1 & _ & Hold & _).
    destruct (invoke_spec c s2 k Hkey Hp2) as (h2 & E2 & _).
    rewrite E1, E2; simpl.
    rewrite <- Hbase, <- (request_of_ext k (baseUrl s1) _ _ c Hparams).
    split; [by eexists|].
    intros Hq l Hl. apply Hold; [done|]. by rewrite Hq.
  - destruct (invoke_without_key c s1 Hk1) as (h1 & E1 & Hold).
    destruct (invoke_without_key c s2 Hkey) as (h2 & E2 & _).
    rewrite E1, E2; simpl.
    split; [exists []; by rewrite !app_nil_r|].
    intros _ l Hl. by apply Hold.
Qed.

End Properties.

(** * Examples *)

(** The key is [secret]; the caller owns no object, or one. *)
Lemma success_returns_envelope_witness :
  (invoke print_Z sample_parse (always (Fulfilled error_text))
     (ProjectInfo "docs") (configured "secret" [])).1 =
    Normal (Fulfilled (Parsed error_value)).
Proof.
  apply (success_returns_envelope print_Z sample_parse (always (Fulfilled error_text))
           (ProjectInfo "docs") (configured "secret" []) "secret" error_text error_value
           (JNumber 3%Z) (JString "API key is not valid")).
  - reflexivity.
  - intros l H; discriminate H.
  - reflexivity.
  - reflexivity.
  - simpl. split; reflexivity.
Defined.

(** C1 fails on the code: the vendor answers 200 with an error envelope, and
    [projectInfo] returns the parsed envelope. *)
Lemma success_with_envelope_is_returned :
  sample_parse error_text = Some error_value ∧
  error_envelope error_value (JNumber 3%Z) (JString "API key is not valid") ∧
  (invoke print_Z sample_parse (always (Fulfilled error_text))
     (ProjectInfo "docs") (configured "secret" [])).1 =
    Normal (Fulfilled (Parsed error_value)) ∧
  (invoke print_Z sample_parse (always (Fulfilled error_text))
     (ProjectInfo "docs") (configured "secret" [])).1 ≠
    Normal (Rejected (Error "Error code 3: API key is not valid")).
Proof.
  split; [reflexivity|]. split; [simpl; split; reflexivity|].
  split; [vm_compute; reflexivity|]. vm_compute. discriminate.
Qed.

Lemma failure_with_envelope_witness :
  (invoke print_Z sample_parse (always (Rejected (StatusCodeError 401 error_text)))
     (ProjectInfo "docs") (configured "secret" [])).1 =
    Normal (Rejected (Error ("Error code " +:+ "3" +:+ ": " +:+ "API key is not valid"))).
Proof.
  apply (failure_with_envelope print_Z sample_parse
           (always (Rejected (StatusCodeError 401 error_text)))
           (ProjectInfo "docs") (configured "secret" []) "secret" 401%Z error_text
           error_value (JNumber 3%Z) (JString "API key is not valid")
           "3" "API key is not valid").
  - reflexivity.
  - intros l H; discriminate H.
  - reflexivity.
  - discriminate.
  - reflexivity.
  - simpl. split; reflexivity.
  - reflexivity.
  - reflexivity.
Defined.

(** C2 fails on the code: the vendor answers 401 with an error envelope;
    [projectInfo] rejects with the Error built from the envelope, and
    [downloadGlossary] rejects with the failure of the HTTP library. *)
Lemma download_failure_is_passed_on :
  sample_parse error_text = Some error_value ∧
  error_text ≠ "" ∧
  (invoke print_Z sample_parse (always (Rejected (StatusCodeError 401 error_text)))
     (ProjectInfo "docs") (configured "secret" [])).1 =
    Normal (Rejected (Error "Error code 3: API key is not valid")) ∧
  (invoke print_Z sample_parse (always (Rejected (StatusCodeError 401 error_text)))
     (DownloadGlossary "docs") (configured "secret" [])).1 =
    Normal (Rejected (StatusCodeError 401 error_text)) ∧
  (invoke print_Z sample_parse (always (Rejected (StatusCodeError 401 error_text)))
     (DownloadGlossary "docs") (configured "secret" [])).1 ≠
    Normal (Rejected (Error "Error code 3: API key is not valid")).
Proof.
  split; [reflexivity|]. split; [discriminate|].
  split; [vm_compute; reflexivity|]. split; [vm_compute; reflexivity|].
  vm_compute. discriminate.
Qed.

Lemma success_returns_body_witness :
  (invoke print_Z sample_parse (always (Fulfilled success_text))
     (DownloadGlossary "docs") (configured "secret" [])).1 =
    Normal (Fulfilled (Raw success_text)).
Proof.
  apply (success_returns_body print_Z sample_parse (always (Fulfilled success_text))
           (DownloadGlossary "docs") (configured "secret" []) "secret" success_text).
  - reflexivity.
  - intros l H; discriminate H.
  - reflexivity.
Defined.

(** C3 fails on the code: the body is JSON, [projectInfo] returns the parsed
    value and [downloadGlossary] returns the text. *)
Lemma download_returns_text :
  sample_parse success_text = Some success_value ∧
  (invoke print_Z sample_parse (always (Fulfilled success_text))
     (ProjectInfo "docs") (configured "secret" [])).1 =
    Normal (Fulfilled (Parsed success_value)) ∧
  (invoke print_Z sample_parse (always (Fulfilled success_text))
     (DownloadGlossary "docs") (configured "secret" [])).1 =
    Normal (Fulfilled (Raw success_text)) ∧
  (invoke print_Z sample_parse (always (Fulfilled success_text))
     (DownloadGlossary "docs") (configured "secret" [])).1 ≠
    Normal (Fulfilled (Parsed success_value)).
Proof.
  split; [reflexivity|]. split; [vm_compute; reflexivity|].
  split; [vm_compute; reflexivity|]. vm_compute. discriminate.
Qed.

(** C4 fails on the code for the download operations: [getApiRequest] writes
    the key into the address as it is.  With the key [a&b#c],
    [downloadTranslations] asks for an address whose query parameter [key] is
    [a] (the text from [#] on is no part of the query); [exportTranslations],
    through [getApiCall], hands the same key to the library in the [qs]
    object, whole.  With the key [secret] the parameter of the download is
    the key. *)
Lemma download_key_is_written_unencoded :
  url <$> issued (invoke print_Z sample_parse (always (Fulfilled success_text))
                    (DownloadTranslations "docs" "fr") (configured "a&b#c" [])).2 =
    ["https://api.crowdin.com/api/project/docs/download/fr.zip?key=a&b#c&json"] ∧
  query_parameter "key"
    "https://api.crowdin.com/api/project/docs/download/fr.zip?key=a&b#c&json" =
    Some "a" ∧
  qs <$> issued (invoke print_Z sample_parse (always (Fulfilled success_text))
                   (ExportTranslations "docs") (configured "a&b#c" [])).2 =
    [Some {[ "json" := VBool true; "key" := VStr "a&b#c" ]}] ∧
  url <$> issued (invoke print_Z sample_parse (always (Fulfilled success_text))
                    (DownloadTranslations "docs" "fr") (configured "secret" [])).2 =
    ["https://api.crowdin.com/api/project/docs/download/fr.zip?key=secret&json"] ∧
  query_parameter "key"
    "https://api.crowdin.com/api/project/docs/download/fr.zip?key=secret&json" =
    Some "secret".
Proof.
  split; [vm_compute; reflexivity|]. split; [vm_compute; reflexivity|].
  split; [vm_compute; reflexivity|]. split; [vm_compute; reflexivity|].
  vm_compute; reflexivity.
Qed.

Lemma missing_key_throws_witness :
  (invoke print_Z sample_parse (always (Fulfilled success_text))
     (AddFile "docs" ["a.txt"; "b.txt"] None) (initial [])).1 =
    Abrupt (Error "Please specify CrowdIn API key.") ∧
  issued (invoke print_Z sample_parse (always (Fulfilled success_text))
            (AddFile "docs" ["a.txt"; "b.txt"] None) (initial [])).2 = [].
Proof.
  apply (missing_key_throws print_Z sample_parse (always (Fulfilled success_text))
           (AddFile "docs" ["a.txt"; "b.txt"] None) (initial [])).
  reflexivity.
Defined.

Lemma changeDirectory_ignores_params_witness :
  invoke print_Z sample_parse (always (Fulfilled success_text))
    (ChangeDirectory "docs" "guide" (Some 0))
    (configured "secret" [{[ "title" := VStr "Guide" ]}]) =
  invoke print_Z sample_parse (always (Fulfilled success_text))
    (ChangeDirectory "docs" "guide" None)
    (configured "secret" [{[ "title" := VStr "Guide" ]}]) ∧
  ∃ r,
    issued (invoke print_Z sample_parse (always (Fulfilled success_text))
              (ChangeDirectory "docs" "guide" (Some 0))
              (configured "secret" [{[ "title" := VStr "Guide" ]}])).2 = [] ++ [r] ∧
    formData r = Some {[ "name" := VStr "guide" ]} ∧
    qs r = Some (credentials "secret").
Proof.
  apply (changeDirectory_ignores_params print_Z sample_parse
           (always (Fulfilled success_text)) "docs" "guide" (Some 0)
           (configured "secret" [{[ "title" := VStr "Guide" ]}]) "secret").
  reflexivity.
Defined.

Lemma createDirectory_writes_params_witness :
  ∃ r,
    issued (invoke print_Z sample_parse (always (Fulfilled success_text))
              (CreateDirectory "docs" "guide" (Some 0))
              (configured "secret" [{[ "title" := VStr "Guide" ]}])).2 = [] ++ [r] ∧
    qs r = Some (credentials "secret" ∪ {[ "title" := VStr "Guide" ]}) ∧
    formData r = Some {[ "name" := VStr "guide" ]} ∧
    heap (invoke print_Z sample_parse (always (Fulfilled success_text))
            (CreateDirectory "docs" "guide" (Some 0))
            (configured "secret" [{[ "title" := VStr "Guide" ]}])).2 !! 0 =
      Some (credentials "secret" ∪ {[ "title" := VStr "Guide" ]}) ∧
    (credentials "secret" ∪ {[ "title" := VStr "Guide" ]} : obj) !! "json" =
      Some (VBool true) ∧
    (credentials "secret" ∪ {[ "title" := VStr "Guide" ]} : obj) !! "key" =
      Some (VStr "secret") ∧
    (∀ name, name ≠ "json" → name ≠ "key" →
       (credentials "secret" ∪ {[ "title" := VStr "Guide" ]} : obj) !! name =
       ({[ "title" := VStr "Guide" ]} : obj) !! name).
Proof.
  apply (createDirectory_writes_params print_Z sample_parse
           (always (Fulfilled success_text)) "docs" "guide" 0
           {[ "title" := VStr "Guide" ]}
           (configured "secret" [{[ "title" := VStr "Guide" ]}]) "secret").
  - reflexivity.
  - reflexivity.
Defined.

Lemma same_configuration_same_request_witness :
  (∃ new,
     issued (invoke print_Z sample_parse (always (Fulfilled success_text))
               (EditProject "docs" (Some 0))
               (configured "secret" [{[ "title" := VStr "Guide" ]}])).2 = [] ++ new ∧
     issued (invoke print_Z sample_parse (always (Fulfilled success_text))
               (EditProject "docs" (Some 0))
               (configured "secret" [{[ "title" := VStr "Guide" ]}; ∅])).2 = [] ++ new) ∧
  (query_object (EditProject "docs" (Some 0)) = None →
   ∀ l, l < 1 →
     heap (invoke print_Z sample_parse (always (Fulfilled success_text))
             (EditProject "docs" (Some 0))
             (configured "secret" [{[ "title" := VStr "Guide" ]}])).2 !! l =
     [{[ "title" := VStr "Guide" ]}] !! l).
Proof.
  apply (same_configuration_same_request print_Z sample_parse
           (always (Fulfilled success_text)) (EditProject "docs" (Some 0))
           (configured "secret" [{[ "title" := VStr "Guide" ]}])
           (configured "secret" [{[ "title" := VStr "Guide" ]}; ∅])).
  - reflexivity.
  - reflexivity.
  - intros l [= <-]. simpl. lia.
  - intros l [= <-]. simpl. lia.
  - reflexivity.
Defined.

(** C6 fails on the code: the same call [supportedLanguages()] issues another
    request after [setBasePath], and [createDirectory] writes into the
    [params] object of its caller. *)
Lemma request_depends_on_configuration :
  url <$> issued (invoke print_Z sample_parse (always (Fulfilled success_text))
                    SupportedLanguages (configured "secret" [])).2 =
    ["https://api.crowdin.com/api/supported-languages"] ∧
  url <$> issued (invoke print_Z sample_parse (always (Fulfilled success_text))
                    SupportedLanguages
                    (setBasePath "https://crowdin.example.org"
                       (configured "secret" [])).2).2 =
    ["https://crowdin.example.org/api/supported-languages"] ∧
  heap (configured "secret" [{[ "title" := VStr "Guide" ]}]) !! 0 =
    Some {[ "title" := VStr "Guide" ]} ∧
  heap (invoke print_Z sample_parse (always (Fulfilled success_text))
          (CreateDirectory "docs" "guide" (Some 0))
          (configured "secret" [{[ "title" := VStr "Guide" ]}])).2 !! 0 =
    Some {[ "json" := VBool true; "key" := VStr "secret"; "title" := VStr "Guide" ]}.
Proof.
  split; [vm_compute; reflexivity|]. split; [vm_compute; reflexivity|].
  split; [reflexivity|]. vm_compute; reflexivity.
Qed.

(** * More of the behaviour of the module *)

(** ** Names of form fields *)

Lemma append_mark_inj (x y : string) (c : Ascii.ascii) :
  x +:+ String c "" = y +:+ String c "" → x = y.
Proof.
  revert y. induction x as [|a x IH]; intros [|b y] H.
  - done.
  - change (String c "" = String b (y +:+ String c "")) in H.
    injection H as _ H. by destruct y.
  - change (String a (x +:+ String c "") = String c "") in H.
    injection H as _ H. by destruct x.
  - change (String a (x +:+ String c "") = String b (y +:+ String c "")) in H.
    injection H as -> H. f_equal. by apply IH.
Qed.

Lemma file_field_inj (f g : string) :
  "files[" +:+ f +:+ "]" = "files[" +:+ g +:+ "]" → f = g.
Proof.
  intros H. apply (inj (String.app "files[")) in H. by apply append_mark_inj in H.
Qed.

Lemma streams_lookup_other files init name :
  (∀ f, f ∈ files → name ≠ "files[" +:+ f +:+ "]") →
  streams files init !! name = init !! name.
Proof.
  revert init. induction files as [|g files IH]; intros init Hname; [done|].
  unfold streams in *; simpl. rewrite IH.
  - apply lookup_insert_ne. intros E. by apply (Hname g); [left|].
  - intros f Hf. apply Hname. by right.
Qed.

Lemma streams_lookup_file files init f :
  f ∈ files →
  streams files init !! ("files[" +:+ f +:+ "]") = Some (VStream f).
Proof.
  revert init. induction files as [|g files IH]; intros init Hf.
  - by apply elem_of_nil in Hf.
  - unfold streams in *; simpl.
    destruct (decide (f ∈ files)) as [Hin|Hout]; [by apply IH|].
    apply elem_of_cons in Hf as [->|Hf]; [|done].
    fold (streams files (<["files[" +:+ g +:+ "]":=VStream g]> init)).
    rewrite streams_lookup_other; [apply lookup_insert_eq|].
    intros f Hf E. apply file_field_inj in E. by subst.
Qed.

Lemma language_is_no_file_field (f : string) : "language" ≠ "files[" +:+ f +:+ "]".
Proof. intros E. discriminate E. Qed.

Lemma key_is_no_file_field (f : string) : "key" ≠ "files[" +:+ f +:+ "]".
Proof. intros E. discriminate E. Qed.

Lemma stored_after_append (h h' : list obj) x :
  allocated h x →
  (∀ l, l < length h → x = Some l → h' !! l = h !! l) →
  stored h' x = stored h x.
Proof.
  intros Hx Hh. destruct x as [l|]; [|done]. simpl.
  by rewrite (Hh l (Hx l eq_refl) eq_refl).
Qed.

(** Case analysis on the values that are printed. *)
Ltac print_cases :=
  repeat match goal with
    | |- context [assoc ?name ?fields] => destruct (assoc name fields); simpl
    | |- context [to_string ?f ?x] => destruct (to_string f x); simpl
    end.

Section Behaviour.

Context {number : Type}.
Variable number_to_string : number → string.
Variable JSON_parse : string → option (json number).
Variable http : http_request → promise string.

Local Abbreviation invoke := (invoke number_to_string JSON_parse http).
Local Abbreviation settled := (settled number_to_string JSON_parse).
Local Abbreviation handleRequest := (handleRequest number_to_string JSON_parse).
Local Abbreviation ToString := (ToString number_to_string).

(** The promise of a call, from the answer to its request. *)
Lemma invoke_outcome c s k :
  apiKey s = Some k →
  allocated (heap s) (params_of c) →
  (invoke c s).1 = Normal (settled c (http (request_of k (baseUrl s) (heap s) c))).
Proof.
  intros Hk Hp.
  destruct (invoke_spec number_to_string JSON_parse http c s k Hk Hp) as (h' & E & _).
  by rewrite E.
Qed.

(** ** Failures of the HTTP library, case by case *)

Lemma throwError_never_returns {A} j :
  throwError number_to_string (A := A) j = Abrupt TypeError ∨
  ∃ rest, throwError number_to_string (A := A) j = Abrupt (Error ("Error code " +:+ rest)).
Proof.
  unfold throwError. destruct j as [| | | | |fields]; simpl; auto.
  destruct (assoc "error" fields) as [e|]; simpl; auto.
  destruct e; simpl; eauto; print_cases; eauto.
Qed.

(** X1: when the HTTP library fails without an answer (a RequestError: no
    connection, timeout), the handler of [handleRequest] reads
    [result.response.body] of a failure that has no [response]: the
    operations that go through [handleRequest] reject with a TypeError and
    the cause is lost; the download operations reject with the RequestError. *)
Theorem transport_failure c s k cause :
  apiKey s = Some k →
  allocated (heap s) (params_of c) →
  http (request_of k (baseUrl s) (heap s) c) = Rejected (RequestError cause) →
  (invoke c s).1 =
    Normal (Rejected (match route c with
                      | ViaGetApiRequest => RequestError cause
                      | _ => TypeError
                      end)).
Proof.
  intros Hk Hp Hhttp. rewrite (invoke_outcome c s k Hk Hp).
  unfold_settled. rewrite Hhttp. by destruct (route c).
Qed.

(** X2: when the HTTP library fails with an answer whose body is empty,
    every operation rejects with the failure of the library as it is. *)
Theorem failure_with_empty_body c s k status :
  apiKey s = Some k →
  allocated (heap s) (params_of c) →
  http (request_of k (baseUrl s) (heap s) c) = Rejected (StatusCodeError status "") →
  (invoke c s).1 = Normal (Rejected (StatusCodeError status "")).
Proof.
  intros Hk Hp Hhttp. rewrite (invoke_outcome c s k Hk Hp).
  unfold_settled. rewrite Hhttp. by destruct (route c).
Qed.

(** X3: when the HTTP library fails with an answer whose body is not empty
    and is not JSON, the operations that go through [handleRequest] reject
    with the SyntaxError of [JSON.parse]. *)
Theorem failure_with_malformed_body c s k status body :
  apiKey s = Some k →
  allocated (heap s) (params_of c) →
  route c ≠ ViaGetApiRequest →
  http (request_of k (baseUrl s) (heap s) c) = Rejected (StatusCodeError status body) →
  body ≠ "" →
  JSON_parse body = None →
  (invoke c s).1 = Normal (Rejected SyntaxError).
Proof.
  intros Hk Hp Hroute Hhttp Hbody Hparse. rewrite (invoke_outcome c s k Hk Hp).
  unfold_settled. rewrite Hhttp.
  destruct (route c); [| |done]; unfold_handleRequest; simpl;
    (destruct (decide (body = "")); [done|]); by rewrite Hparse.
Qed.

(** X4: when the body of the failed answer is JSON without an [error]
    object (no such property, [error: null], or a value that is not an
    object), [throwError] reads a property of undefined or null: the
    operations that go through [handleRequest] reject with a TypeError. *)
Theorem failure_without_error_object c s k status body j :
  apiKey s = Some k →
  allocated (heap s) (params_of c) →
  route c ≠ ViaGetApiRequest →
  http (request_of k (baseUrl s) (heap s) c) = Rejected (StatusCodeError status body) →
  body ≠ "" →
  JSON_parse body = Some j →
  (∀ fields, j = JObject fields →
     assoc "error" fields = None ∨ assoc "error" fields = Some JNull) →
  (invoke c s).1 = Normal (Rejected TypeError).
Proof.
  intros Hk Hp Hroute Hhttp Hbody Hparse Hj. rewrite (invoke_outcome c s k Hk Hp).
  unfold_settled. rewrite Hhttp.
  assert (throwError number_to_string (A := ()) j = Abrupt TypeError) as Hthrow.
  { unfold throwError. destruct j as [| | | | |fields]; try done.
    simpl. by destruct (Hj fields eq_refl) as [-> | ->]. }
  destruct (route c); [| |done]; unfold_handleRequest; simpl;
    (destruct (decide (body = "")); [done|]); rewrite Hparse; simpl;
    by rewrite Hthrow.
Qed.

(** X5: when the body of the failed answer holds an [error] value that is
    not null, the message of the Error is built from [error.code] and
    [error.message], a property that is missing being printed as
    [undefined]; when one of the two cannot be turned into a string (an
    object with a property [toString] of its own, alone or in an array), the
    rejection is the TypeError of that conversion. *)
Theorem failure_with_partial_envelope c s k status body fields e code message :
  apiKey s = Some k →
  allocated (heap s) (params_of c) →
  route c ≠ ViaGetApiRequest →
  http (request_of k (baseUrl s) (heap s) c) = Rejected (StatusCodeError status body) →
  body ≠ "" →
  JSON_parse body = Some (JObject fields) →
  assoc "error" fields = Some e →
  get_prop (Some e) "code" = Normal code →
  get_prop (Some e) "message" = Normal message →
  (invoke c s).1 =
    Normal (Rejected (match ToString code, ToString message with
                      | Normal code_text, Normal message_text =>
                          Error ("Error code " +:+ code_text +:+ ": " +:+ message_text)
                      | _, _ => TypeError
                      end)).
Proof.
  intros Hk Hp Hroute Hhttp Hbody Hparse He Hcode Hmessage.
  rewrite (invoke_outcome c s k Hk Hp). unfold_settled. rewrite Hhttp.
  destruct (route c); [| |done]; unfold_handleRequest; simpl;
    (destruct (decide (body = "")); [done|]); rewrite Hparse; simpl;
    unfold throwError; simpl; rewrite He;
    destruct e; simpl in *; simplify_eq; simpl; try done; print_cases; done.
Qed.

(** X6: a failure of the HTTP library is never turned into a success:
    whatever the library rejects with, the promise of the operation is
    rejected. *)
Theorem failure_never_fulfils c s k reason :
  apiKey s = Some k →
  allocated (heap s) (params_of c) →
  http (request_of k (baseUrl s) (heap s) c) = Rejected reason →
  ∃ e, (invoke c s).1 = Normal (Rejected e).
Proof.
  intros Hk Hp Hhttp. rewrite (invoke_outcome c s k Hk Hp).
  unfold_settled. rewrite Hhttp.
  assert (∃ e, handleRequest (Rejected reason) = Rejected e) as [e He].
  { unfold_handleRequest; simpl. destruct reason as [| | |status body|]; simpl; eauto.
    destruct (decide (body = "")); simpl; eauto.
    destruct (JSON_parse body) as [j|]; simpl; eauto.
    destruct (throwError_never_returns (A := ()) j) as [-> | [rest ->]]; simpl; eauto. }
  destruct (route c); simpl; rewrite ?He; eauto.
Qed.

(** X7: when the failed answer has a body, the operations that go through
    [handleRequest] never pass the failure of the library on (line 36 is not
    reached): the rejection is a SyntaxError, a TypeError, or an Error whose
    message starts with [Error code ]; the status code is lost. *)
Theorem failure_with_body_is_replaced c s k status body :
  apiKey s = Some k →
  allocated (heap s) (params_of c) →
  route c ≠ ViaGetApiRequest →
  http (request_of k (baseUrl s) (heap s) c) = Rejected (StatusCodeError status body) →
  body ≠ "" →
  ∃ e, (invoke c s).1 = Normal (Rejected e) ∧
       (e = SyntaxError ∨ e = TypeError ∨ ∃ rest, e = Error ("Error code " +:+ rest)).
Proof.
  intros Hk Hp Hroute Hhttp Hbody. rewrite (invoke_outcome c s k Hk Hp).
  unfold_settled. rewrite Hhttp.
  assert (∃ e, handleRequest (Rejected (StatusCodeError status body)) = Rejected e ∧
               (e = SyntaxError ∨ e = TypeError ∨
                ∃ rest, e = Error ("Error code " +:+ rest))) as (e & He & Hcases).
  { unfold_handleRequest; simpl. destruct (decide (body = "")); [done|].
    destruct (JSON_parse body) as [j|]; simpl.
    - destruct (throwError_never_returns (A := ()) j) as [-> | [rest ->]]; simpl.
      + eexists; split; [reflexivity | right; by left].
      + eexists; split; [reflexivity | right; right; by eexists].
    - eexists; split; [reflexivity | by left]. }
  destruct (route c); [| |done]; simpl; rewrite He; eauto.
Qed.

(** ** The form body of the uploads *)

(** X8: the form body of [addFile] and [updateFile] holds one field
    [files[name]] with the stream of [name] for every name in [files], and
    the properties of [params]; where both give a field, [params] wins; it
    holds nothing else.  The query string holds the credentials only. *)
Theorem upload_form_fields c projectName files params s k :
  c = AddFile projectName files params ∨ c = UpdateFile projectName files params →
  apiKey s = Some k →
  allocated (heap s) params →
  ∃ r form,
    issued (invoke c s).2 = issued s ++ [r] ∧
    qs r = Some (credentials k) ∧
    formData r = Some form ∧
    (∀ name v, stored (heap s) params !! name = Some v → form !! name = Some v) ∧
    (∀ f, f ∈ files →
       stored (heap s) params !! ("files[" +:+ f +:+ "]") = None →
       form !! ("files[" +:+ f +:+ "]") = Some (VStream f)) ∧
    (∀ name, stored (heap s) params !! name = None →
       (∀ f, f ∈ files → name ≠ "files[" +:+ f +:+ "]") →
       form !! name = None).
Proof.
  intros Hc Hk Hp.
  assert (allocated (heap s) (params_of c)) as Hp' by (by destruct Hc as [-> | ->]).
  destruct (invoke_spec number_to_string JSON_parse http c s k Hk Hp') as (h' & E & _).
  rewrite E; simpl. exists (request_of k (baseUrl s) (heap s) c).
  exists (stored (heap s) params ∪ streams files ∅).
  split; [done|]. split.
  { destruct Hc as [-> | ->]; unfold request_of, query_of; simpl;
      by rewrite (right_id_L ∅ (∪)). }
  split; [by destruct Hc as [-> | ->]|].
  split; [|split].
  - intros name v Hv. by apply lookup_union_Some_l.
  - intros f Hf Hnone. rewrite lookup_union_r by done.
    by apply streams_lookup_file.
  - intros name Hnone Hname. rewrite lookup_union_r by done.
    by rewrite streams_lookup_other.
Qed.

(** X9: in the form body of [updateTranslations] the field [language] is
    the argument [language], unless [params] has a property [language], which
    then replaces it; no file name can replace it.  The files and the other
    properties of [params] are sent as in [addFile]. *)
Theorem updateTranslations_form_fields projectName files language params s k :
  apiKey s = Some k →
  allocated (heap s) params →
  ∃ r form,
    issued (invoke (UpdateTranslations projectName files language params) s).2 =
      issued s ++ [r] ∧
    formData r = Some form ∧
    form !! "language" =
      Some (default (VStr language) (stored (heap s) params !! "language")) ∧
    (∀ name v, stored (heap s) params !! name = Some v → form !! name = Some v) ∧
    (∀ f, f ∈ files →
       stored (heap s) params !! ("files[" +:+ f +:+ "]") = None →
       form !! ("files[" +:+ f +:+ "]") = Some (VStream f)).
Proof.
  intros Hk Hp.
  destruct (invoke_spec number_to_string JSON_parse http
              (UpdateTranslations projectName files language params) s k Hk Hp)
    as (h' & E & _).
  rewrite E; simpl. eexists.
  exists (stored (heap s) params ∪ streams files {[ "language" := VStr language ]}).
  split; [reflexivity|]. split; [reflexivity|].
  split; [|split].
  - destruct (stored (heap s) params !! "language") as [v|] eqn:Hl; simpl.
    + by apply lookup_union_Some_l.
    + rewrite lookup_union_r by done. rewrite streams_lookup_other.
      * apply lookup_singleton_eq.
      * intros f _. apply language_is_no_file_field.
  - intros name v Hv. by apply lookup_union_Some_l.
  - intros f Hf Hnone. rewrite lookup_union_r by done.
    by apply streams_lookup_file.
Qed.

(** X10: the API key travels in the query string only: unless the [params]
    object of the caller has a property [key] of its own, no operation puts
    a field [key] into the form body. *)
Theorem key_stays_out_of_form c s k :
  apiKey s = Some k →
  allocated (heap s) (params_of c) →
  stored (heap s) (params_of c) !! "key" = None →
  ∃ r,
    issued (invoke c s).2 = issued s ++ [r] ∧
    ∀ form, formData r = Some form → form !! "key" = None.
Proof.
  intros Hk Hp Hnone.
  destruct (invoke_spec number_to_string JSON_parse http c s k Hk Hp) as (h' & E & _).
  rewrite E; simpl. eexists; split; [reflexivity|].
  unfold request_of. destruct c; simpl in *; intros form [= <-]; try done.
  all: apply lookup_union_None_2; [done|].
  all: rewrite streams_lookup_other; [done|].
  all: intros f _; apply key_is_no_file_field.
Qed.

(** X11: for the two uploads of one file, a file name is turned into the
    stream of that file and a stream is sent as it is: the form body is the
    one field [file], and a call with a name is the call with a stream that
    the caller has created on that name. *)
Theorem upload_name_or_stream c projectName file s k :
  c = UploadGlossary projectName file ∨ c = UploadTranslationMemory projectName file →
  apiKey s = Some k →
  ∃ r,
    issued (invoke c s).2 = issued s ++ [r] ∧
    qs r = Some (credentials k) ∧
    formData r = Some {[ "file" := match file with
                                   | VStr name => VStream name
                                   | other => other
                                   end ]} ∧
    ∀ name, file = VStr name →
      invoke c s =
      invoke (match c with
              | UploadGlossary p _ => UploadGlossary p (VStream name)
              | UploadTranslationMemory p _ => UploadTranslationMemory p (VStream name)
              | other => other
              end) (createReadStream name s).2.
Proof.
  intros Hc Hk.
  assert (allocated (heap s) (params_of c)) as Hp
    by (destruct Hc as [-> | ->]; by intros ? [=]).
  destruct (invoke_spec number_to_string JSON_parse http c s k Hk Hp) as (h' & E & _).
  exists (request_of k (baseUrl s) (heap s) c).
  split; [by rewrite E|].
  destruct Hc as [-> | ->]; unfold request_of, query_of; simpl;
    rewrite (right_id_L ∅ (∪)); (split; [done|]); (split; [done|]);
    by intros name ->.
Qed.

(** ** Calls one after the other *)

(** X12: the setters commute and take effect on the next call, whatever was
    stored before: after [setKey(k)] and [setBasePath(base)] a call does not
    throw the error of the missing key, and hands the HTTP library one
    request built from [k] and [base]: its url is [base], [/api/] and the
    endpoint, with [?key=], [k] and [&json] appended as they are for the
    download operations; for the other operations the [qs] object holds
    [key = k]. *)
Theorem configuration_then_call c s k base :
  allocated (heap s) (params_of c) →
  (setKey k (setBasePath base s).2).2 = (setBasePath base (setKey k s).2).2 ∧
  (invoke c (setBasePath base (setKey k s).2).2).1 ≠
    Abrupt (Error "Please specify CrowdIn API key.") ∧
  ∃ r,
    issued (invoke c (setBasePath base (setKey k s).2).2).2 = issued s ++ [r] ∧
    match route c with
    | ViaGetApiRequest =>
        url r = base +:+ "/api/" +:+ endpoint c +:+ "?key=" +:+ k +:+ "&json"
    | _ =>
        url r = base +:+ "/api/" +:+ endpoint c ∧
        ∃ q, qs r = Some q ∧ q !! "key" = Some (VStr k)
    end.
Proof.
  intros Hp. split; [done|].
  destruct (invoke_spec number_to_string JSON_parse http c
              (setBasePath base (setKey k s).2).2 k eq_refl Hp) as (h' & E & _).
  rewrite E; simpl. split; [done|]. eexists. split; [reflexivity|].
  unfold request_of. destruct (route c); simpl.
  - split; [done|]. eexists; split; [done | apply credentials_key].
  - split; [done|]. eexists; split; [done | apply lookup_union_Some_l, credentials_key].
  - done.
Qed.

(** X13: two calls in a row issue their two requests in that order, and the
    second request is the one the call would have issued alone, unless the
    first call is a [createDirectory] that was given the [params] object of
    the second. *)
Theorem calls_in_sequence c1 c2 s k :
  apiKey s = Some k →
  allocated (heap s) (params_of c1) →
  allocated (heap s) (params_of c2) →
  (∀ l, query_object c1 = Some l → params_of c2 ≠ Some l) →
  issued (invoke c2 (invoke c1 s).2).2 =
    issued s ++ [request_of k (baseUrl s) (heap s) c1;
                 request_of k (baseUrl s) (heap s) c2].
Proof.
  intros Hk Hp1 Hp2 Hdiff.
  destruct (invoke_spec number_to_string JSON_parse http c1 s k Hk Hp1)
    as (h1 & E1 & Hlen & Hold & _).
  rewrite E1; simpl.
  set (s1 := {| apiKey := Some k; baseUrl := baseUrl s; heap := h1;
                issued := issued s ++ [request_of k (baseUrl s) (heap s) c1];
                opened := opened s ++ streams_created c1 |}).
  assert (allocated (heap s1) (params_of c2)) as Hp2'.
  { intros l Hl. specialize (Hp2 l Hl). simpl. lia. }
  destruct (invoke_spec number_to_string JSON_parse http c2 s1 k eq_refl Hp2')
    as (h2 & E2 & _).
  rewrite E2; simpl. rewrite <- app_assoc; simpl. do 3 f_equal.
  apply request_of_ext, stored_after_append; [done|].
  intros l Hl Hc2. apply Hold; [done|]. intros Hc1. by apply (Hdiff l).
Qed.

(** X14: [createDirectory] may be called again with the same [params]
    object: the second call sends the same query string and leaves the
    object as the first call left it. *)
Theorem createDirectory_twice p1 d1 p2 d2 l o s k :
  apiKey s = Some k →
  heap s !! l = Some o →
  ∃ r1 r2,
    issued (invoke (CreateDirectory p2 d2 (Some l))
              (invoke (CreateDirectory p1 d1 (Some l)) s).2).2 =
      issued s ++ [r1; r2] ∧
    qs r1 = Some (credentials k ∪ o) ∧
    qs r2 = Some (credentials k ∪ o) ∧
    heap (invoke (CreateDirectory p2 d2 (Some l))
            (invoke (CreateDirectory p1 d1 (Some l)) s).2).2 !! l =
    heap (invoke (CreateDirectory p1 d1 (Some l)) s).2 !! l.
Proof.
  intros Hk Ho.
  assert (l < length (heap s)) as Hl by (by eapply lookup_lt_Some).
  destruct (invoke_spec number_to_string JSON_parse http
              (CreateDirectory p1 d1 (Some l)) s k Hk)
    as (h1 & E1 & Hlen & _ & Hnew); [by intros ? [= <-]|].
  specialize (Hnew l eq_refl). simpl in Hnew. rewrite Ho in Hnew; simpl in Hnew.
  rewrite E1; cbn [snd].
  set (s1 := {| apiKey := Some k; baseUrl := baseUrl s; heap := h1;
                issued := issued s ++
                  [request_of k (baseUrl s) (heap s) (CreateDirectory p1 d1 (Some l))];
                opened := opened s ++ streams_created (CreateDirectory p1 d1 (Some l)) |}).
  destruct (invoke_spec number_to_string JSON_parse http
              (CreateDirectory p2 d2 (Some l)) s1 k eq_refl)
    as (h2 & E2 & _ & _ & Hnew2); [intros ? [= <-]; simpl; lia|].
  specialize (Hnew2 l eq_refl). simpl in Hnew2. rewrite Hnew in Hnew2; simpl in Hnew2.
  rewrite (assoc_L (∪)), (idemp_L (∪)) in Hnew2.
  rewrite E2. subst s1; simpl. rewrite <- app_assoc; simpl. do 2 eexists.
  split; [reflexivity|]. unfold request_of, query_of; simpl.
  rewrite Ho, Hnew; simpl. rewrite (assoc_L (∪)), (idemp_L (∪)).
  split; [done|]. split; [done|]. by rewrite Hnew2.
Qed.

(** X15: a [params] object that went through [createDirectory] carries the
    API key afterwards: handed to [editProject], which sends [params] as the
    form body, it puts [key] and [json] into that body. *)
Theorem params_reused_after_createDirectory p1 d p2 l o s k :
  apiKey s = Some k →
  heap s !! l = Some o →
  ∃ r1 r2 form,
    issued (invoke (EditProject p2 (Some l))
              (invoke (CreateDirectory p1 d (Some l)) s).2).2 =
      issued s ++ [r1; r2] ∧
    formData r2 = Some form ∧
    form !! "key" = Some (VStr k) ∧
    form !! "json" = Some (VBool true).
Proof.
  intros Hk Ho.
  assert (l < length (heap s)) as Hl by (by eapply lookup_lt_Some).
  destruct (invoke_spec number_to_string JSON_parse http
              (CreateDirectory p1 d (Some l)) s k Hk)
    as (h1 & E1 & Hlen & _ & Hnew); [by intros ? [= <-]|].
  specialize (Hnew l eq_refl). simpl in Hnew. rewrite Ho in Hnew; simpl in Hnew.
  rewrite E1; cbn [snd].
  set (s1 := {| apiKey := Some k; baseUrl := baseUrl s; heap := h1;
                issued := issued s ++
                  [request_of k (baseUrl s) (heap s) (CreateDirectory p1 d (Some l))];
                opened := opened s ++ streams_created (CreateDirectory p1 d (Some l)) |}).
  destruct (invoke_spec number_to_string JSON_parse http
              (EditProject p2 (Some l)) s1 k eq_refl)
    as (h2 & E2 & _); [intros ? [= <-]; simpl; lia|].
  rewrite E2. subst s1; simpl. rewrite <- app_assoc; simpl.
  do 2 eexists. exists (credentials k ∪ o). split; [reflexivity|].
  unfold request_of; simpl. rewrite Hnew; simpl. split; [done|].
  split; apply lookup_union_Some_l; [apply credentials_key | apply credentials_json].
Qed.

(** X16: a call that throws for the missing key has issued no request and
    has changed neither the key, nor the base URL, nor an object of the
    caller, also for [createDirectory] with a [params] object.  What it
    leaves behind are the read streams: [addFile], [updateFile] and
    [updateTranslations] have created one stream for each file name, and
    [uploadGlossary] and [uploadTranslationMemory] one for a file name,
    before [validateKey] throws; the other operations have created none. *)
Theorem missing_key_changes_nothing c s :
  apiKey s = None →
  apiKey (invoke c s).2 = None ∧
  baseUrl (invoke c s).2 = baseUrl s ∧
  issued (invoke c s).2 = issued s ∧
  (∀ l, l < length (heap s) → heap (invoke c s).2 !! l = heap s !! l) ∧
  opened (invoke c s).2 = opened s ++ streams_created c.
Proof.
  intros Hk.
  destruct (invoke_without_key number_to_string JSON_parse http c s Hk) as (h' & E & Hold).
  by rewrite E.
Qed.

(** X17: the operations of [postApiCall] issue a POST with a form body (an
    empty one when the operation has no field); the operations of
    [getApiCall] and [getApiRequest] issue a GET without a form body; the
    download operations have no [qs] object either. *)
Theorem request_method c s k :
  apiKey s = Some k →
  allocated (heap s) (params_of c) →
  ∃ r,
    issued (invoke c s).2 = issued s ++ [r] ∧
    match route c with
    | ViaPostApiCall => method r = POST ∧ is_Some (formData r) ∧ is_Some (qs r)
    | ViaGetApiCall => method r = GET ∧ formData r = None ∧ qs r = Some (credentials k)
    | ViaGetApiRequest => method r = GET ∧ formData r = None ∧ qs r = None
    end.
Proof.
  intros Hk Hp.
  destruct (invoke_spec number_to_string JSON_parse http c s k Hk Hp) as (h' & E & _).
  rewrite E; simpl. eexists; split; [reflexivity|].
  unfold request_of. destruct (route c); simpl; eauto.
Qed.

End Behaviour.

(** * Examples for the behaviour above *)

Lemma transport_failure_witness :
  (invoke print_Z sample_parse (always (Rejected (RequestError "ECONNREFUSED")))
     (ProjectInfo "docs") (configured "secret" [])).1 =
    Normal (Rejected TypeError).
Proof.
  apply (transport_failure print_Z sample_parse
           (always (Rejected (RequestError "ECONNREFUSED")))
           (ProjectInfo "docs") (configured "secret" []) "secret" "ECONNREFUSED").
  - reflexivity.
  - intros l H; discriminate H.
  - reflexivity.
Defined.

Lemma failure_with_empty_body_witness :
  (invoke print_Z sample_parse (always (Rejected (StatusCodeError 502 "")))
     SupportedLanguages (configured "secret" [])).1 =
    Normal (Rejected (StatusCodeError 502 "")).
Proof.
  apply (failure_with_empty_body print_Z sample_parse
           (always (Rejected (StatusCodeError 502 "")))
           SupportedLanguages (configured "secret" []) "secret" 502%Z).
  - reflexivity.
  - intros l H; discriminate H.
  - reflexivity.
Defined.

Lemma failure_with_malformed_body_witness :
  (invoke print_Z sample_parse (always (Rejected (StatusCodeError 502 "<html>")))
     SupportedLanguages (configured "secret" [])).1 =
    Normal (Rejected SyntaxError).
Proof.
  apply (failure_with_malformed_body print_Z sample_parse
           (always (Rejected (StatusCodeError 502 "<html>")))
           SupportedLanguages (configured "secret" []) "secret" 502%Z "<html>").
  - reflexivity.
  - intros l H; discriminate H.
  - discriminate.
  - reflexivity.
  - discriminate.
  - reflexivity.
Defined.

Lemma failure_without_error_object_witness :
  (invoke print_Z sample_parse (always (Rejected (StatusCodeError 500 success_text)))
     (DeleteProject "docs") (configured "secret" [])).1 =
    Normal (Rejected TypeError).
Proof.
  apply (failure_without_error_object print_Z sample_parse
           (always (Rejected (StatusCodeError 500 success_text)))
           (DeleteProject "docs") (configured "secret" []) "secret" 500%Z
           success_text success_value).
  - reflexivity.
  - intros l H; discriminate H.
  - discriminate.
  - reflexivity.
  - discriminate.
  - reflexivity.
  - intros fields [= <-]. left. reflexivity.
Defined.

Lemma failure_with_partial_envelope_witness :
  (invoke print_Z sample_parse_more
     (always (Rejected (StatusCodeError 404 not_found_text)))
     (DeleteProject "docs") (configured "secret" [])).1 =
    Normal (Rejected (Error ("Error code " +:+ "undefined" +:+ ": " +:+ "Not found"))).
Proof.
  apply (failure_with_partial_envelope print_Z sample_parse_more
           (always (Rejected (StatusCodeError 404 not_found_text)))
           (DeleteProject "docs") (configured "secret" []) "secret" 404%Z not_found_text
           [("error", JObject [("message", JString "Not found")])]
           (JObject [("message", JString "Not found")])
           None (Some (JString "Not found"))).
  - reflexivity.
  - intros l H; discriminate H.
  - discriminate.
  - reflexivity.
  - discriminate.
  - reflexivity.
  - reflexivity.
  - reflexivity.
  - reflexivity.
Defined.

Lemma failure_never_fulfils_witness :
  ∃ e,
    (invoke print_Z sample_parse (always (Rejected (StatusCodeError 401 error_text)))
       (TranslationStatus "docs") (configured "secret" [])).1 = Normal (Rejected e).
Proof.
  apply (failure_never_fulfils print_Z sample_parse
           (always (Rejected (StatusCodeError 401 error_text)))
           (TranslationStatus "docs") (configured "secret" []) "secret"
           (StatusCodeError 401 error_text)).
  - reflexivity.
  - intros l H; discriminate H.
  - reflexivity.
Defined.

Lemma failure_with_body_is_replaced_witness :
  ∃ e,
    (invoke print_Z sample_parse (always (Rejected (StatusCodeError 401 error_text)))
       (TranslationStatus "docs") (configured "secret" [])).1 = Normal (Rejected e) ∧
    (e = SyntaxError ∨ e = TypeError ∨ ∃ rest, e = Error ("Error code " +:+ rest)).
Proof.
  apply (failure_with_body_is_replaced print_Z sample_parse
           (always (Rejected (StatusCodeError 401 error_text)))
           (TranslationStatus "docs") (configured "secret" []) "secret" 401%Z error_text).
  - reflexivity.
  - intros l H; discriminate H.
  - discriminate.
  - reflexivity.
  - discriminate.
Defined.

Lemma upload_form_fields_witness :
  ∃ r form,
    issued (invoke print_Z sample_parse (always (Fulfilled success_text))
              (AddFile "docs" ["a.txt"; "b.txt"] (Some 0))
              (configured "secret" [{[ "title" := VStr "Guide" ]}])).2 =
      issued (configured "secret" [{[ "title" := VStr "Guide" ]}]) ++ [r] ∧
    qs r = Some (credentials "secret") ∧
    formData r = Some form ∧
    (∀ name v,
       stored (heap (configured "secret" [{[ "title" := VStr "Guide" ]}])) (Some 0)
         !! name = Some v →
       form !! name = Some v) ∧
    (∀ f, f ∈ ["a.txt"; "b.txt"] →
       stored (heap (configured "secret" [{[ "title" := VStr "Guide" ]}])) (Some 0)
         !! ("files[" +:+ f +:+ "]") = None →
       form !! ("files[" +:+ f +:+ "]") = Some (VStream f)) ∧
    (∀ name,
       stored (heap (configured "secret" [{[ "title" := VStr "Guide" ]}])) (Some 0)
         !! name = None →
       (∀ f, f ∈ ["a.txt"; "b.txt"] → name ≠ "files[" +:+ f +:+ "]") →
       form !! name = None).
Proof.
  apply (upload_form_fields print_Z sample_parse (always (Fulfilled success_text))
           (AddFile "docs" ["a.txt"; "b.txt"] (Some 0)) "docs" ["a.txt"; "b.txt"] (Some 0)
           (configured "secret" [{[ "title" := VStr "Guide" ]}]) "secret").
  - left. reflexivity.
  - reflexivity.
  - intros l [= <-]. simpl. lia.
Defined.

Lemma updateTranslations_form_fields_witness :
  ∃ r form,
    issued (invoke print_Z sample_parse (always (Fulfilled success_text))
              (UpdateTranslations "docs" ["a.txt"] "fr" (Some 0))
              (configured "secret" [{[ "language" := VStr "de" ]}])).2 =
      issued (configured "secret" [{[ "language" := VStr "de" ]}]) ++ [r] ∧
    formData r = Some form ∧
    form !! "language" =
      Some (default (VStr "fr")
              (stored (heap (configured "secret" [{[ "language" := VStr "de" ]}]))
                 (Some 0) !! "language")) ∧
    (∀ name v,
       stored (heap (configured "secret" [{[ "language" := VStr "de" ]}])) (Some 0)
         !! name = Some v →
       form !! name = Some v) ∧
    (∀ f, f ∈ ["a.txt"] →
       stored (heap (configured "secret" [{[ "language" := VStr "de" ]}])) (Some 0)
         !! ("files[" +:+ f +:+ "]") = None →
       form !! ("files[" +:+ f +:+ "]") = Some (VStream f)).
Proof.
  apply (updateTranslations_form_fields print_Z sample_parse
           (always (Fulfilled success_text)) "docs" ["a.txt"] "fr" (Some 0)
           (configured "secret" [{[ "language" := VStr "de" ]}]) "secret").
  - reflexivity.
  - intros l [= <-]. simpl. lia.
Defined.

Lemma key_stays_out_of_form_witness :
  ∃ r,
    issued (invoke print_Z sample_parse (always (Fulfilled success_text))
              (EditProject "docs" (Some 0))
              (configured "secret" [{[ "title" := VStr "Guide" ]}])).2 = [] ++ [r] ∧
    ∀ form, formData r = Some form → form !! "key" = None.
Proof.
  apply (key_stays_out_of_form print_Z sample_parse (always (Fulfilled success_text))
           (EditProject "docs" (Some 0))
           (configured "secret" [{[ "title" := VStr "Guide" ]}]) "secret").
  - reflexivity.
  - intros l [= <-]. simpl. lia.
  - reflexivity.
Defined.

Lemma upload_name_or_stream_witness :
  ∃ r,
    issued (invoke print_Z sample_parse (always (Fulfilled success_text))
              (UploadGlossary "docs" (VStr "terms.tbx")) (configured "secret" [])).2 =
      [] ++ [r] ∧
    qs r = Some (credentials "secret") ∧
    formData r = Some {[ "file" := VStream "terms.tbx" ]} ∧
    ∀ name, VStr "terms.tbx" = VStr name →
      invoke print_Z sample_parse (always (Fulfilled success_text))
        (UploadGlossary "docs" (VStr "terms.tbx")) (configured "secret" []) =
      invoke print_Z sample_parse (always (Fulfilled success_text))
        (UploadGlossary "docs" (VStream name))
        (createReadStream name (configured "secret" [])).2.
Proof.
  apply (upload_name_or_stream print_Z sample_parse (always (Fulfilled success_text))
           (UploadGlossary "docs" (VStr "terms.tbx")) "docs" (VStr "terms.tbx")
           (configured "secret" []) "secret").
  - left. reflexivity.
  - reflexivity.
Defined.

Lemma configuration_then_call_witness :
  (setKey "secret" (setBasePath "https://crowdin.example.org" (initial [])).2).2 =
  (setBasePath "https://crowdin.example.org" (setKey "secret" (initial [])).2).2 ∧
  (invoke print_Z sample_parse (always (Fulfilled success_text))
     (DownloadGlossary "docs")
     (setBasePath "https://crowdin.example.org" (setKey "secret" (initial [])).2).2).1 ≠
    Abrupt (Error "Please specify CrowdIn API key.") ∧
  ∃ r,
    issued (invoke print_Z sample_parse (always (Fulfilled success_text))
              (DownloadGlossary "docs")
              (setBasePath "https://crowdin.example.org"
                 (setKey "secret" (initial [])).2).2).2 = issued (initial []) ++ [r] ∧
    url r = "https://crowdin.example.org" +:+ "/api/" +:+
            endpoint (DownloadGlossary "docs") +:+ "?key=" +:+ "secret" +:+ "&json".
Proof.
  apply (configuration_then_call print_Z sample_parse (always (Fulfilled success_text))
           (DownloadGlossary "docs") (initial []) "secret" "https://crowdin.example.org").
  intros l H; discriminate H.
Defined.

Lemma calls_in_sequence_witness :
  issued (invoke print_Z sample_parse (always (Fulfilled success_text))
            (DownloadAllTranslations "docs")
            (invoke print_Z sample_parse (always (Fulfilled success_text))
               (ExportTranslations "docs") (configured "secret" [])).2).2 =
    [] ++ [request_of "secret" "https://api.crowdin.com" [] (ExportTranslations "docs");
           request_of "secret" "https://api.crowdin.com" []
             (DownloadAllTranslations "docs")].
Proof.
  apply (calls_in_sequence print_Z sample_parse (always (Fulfilled success_text))
           (ExportTranslations "docs") (DownloadAllTranslations "docs")
           (configured "secret" []) "secret").
  - reflexivity.
  - intros l H; discriminate H.
  - intros l H; discriminate H.
  - intros l H; discriminate H.
Defined.

Lemma createDirectory_twice_witness :
  ∃ r1 r2,
    issued (invoke print_Z sample_parse (always (Fulfilled success_text))
              (CreateDirectory "docs" "guide/intro" (Some 0))
              (invoke print_Z sample_parse (always (Fulfilled success_text))
                 (CreateDirectory "docs" "guide" (Some 0))
                 (configured "secret" [{[ "title" := VStr "Guide" ]}])).2).2 =
      [] ++ [r1; r2] ∧
    qs r1 = Some (credentials "secret" ∪ {[ "title" := VStr "Guide" ]}) ∧
    qs r2 = Some (credentials "secret" ∪ {[ "title" := VStr "Guide" ]}) ∧
    heap (invoke print_Z sample_parse (always (Fulfilled success_text))
            (CreateDirectory "docs" "guide/intro" (Some 0))
            (invoke print_Z sample_parse (always (Fulfilled success_text))
               (CreateDirectory "docs" "guide" (Some 0))
               (configured "secret" [{[ "title" := VStr "Guide" ]}])).2).2 !! 0 =
    heap (invoke print_Z sample_parse (always (Fulfilled success_text))
            (CreateDirectory "docs" "guide" (Some 0))
            (configured "secret" [{[ "title" := VStr "Guide" ]}])).2 !! 0.
Proof.
  apply (createDirectory_twice print_Z sample_parse (always (Fulfilled success_text))
           "docs" "guide" "docs" "guide/intro" 0 {[ "title" := VStr "Guide" ]}
           (configured "secret" [{[ "title" := VStr "Guide" ]}]) "secret").
  - reflexivity.
  - reflexivity.
Defined.

Lemma params_reused_after_createDirectory_witness :
  ∃ r1 r2 form,
    issued (invoke print_Z sample_parse (always (Fulfilled success_text))
              (EditProject "docs" (Some 0))
              (invoke print_Z sample_parse (always (Fulfilled success_text))
                 (CreateDirectory "docs" "guide" (Some 0))
                 (configured "secret" [{[ "title" := VStr "Guide" ]}])).2).2 =
      [] ++ [r1; r2] ∧
    formData r2 = Some form ∧
    form !! "key" = Some (VStr "secret") ∧
    form !! "json" = Some (VBool true).
Proof.
  apply (params_reused_after_createDirectory print_Z sample_parse
           (always (Fulfilled success_text)) "docs" "guide" "docs" 0
           {[ "title" := VStr "Guide" ]}
           (configured "secret" [{[ "title" := VStr "Guide" ]}]) "secret").
  - reflexivity.
  - reflexivity.
Defined.

Lemma missing_key_changes_nothing_witness :
  apiKey (invoke print_Z sample_parse (always (Fulfilled success_text))
            (AddFile "docs" ["a.txt"; "b.txt"] (Some 0))
            (initial [{[ "title" := VStr "Guide" ]}])).2 = None ∧
  baseUrl (invoke print_Z sample_parse (always (Fulfilled success_text))
             (AddFile "docs" ["a.txt"; "b.txt"] (Some 0))
             (initial [{[ "title" := VStr "Guide" ]}])).2 = "https://api.crowdin.com" ∧
  issued (invoke print_Z sample_parse (always (Fulfilled success_text))
            (AddFile "docs" ["a.txt"; "b.txt"] (Some 0))
            (initial [{[ "title" := VStr "Guide" ]}])).2 = [] ∧
  (∀ l, l < 1 →
     heap (invoke print_Z sample_parse (always (Fulfilled success_text))
             (AddFile "docs" ["a.txt"; "b.txt"] (Some 0))
             (initial [{[ "title" := VStr "Guide" ]}])).2 !! l =
     [{[ "title" := VStr "Guide" ]}] !! l) ∧
  opened (invoke print_Z sample_parse (always (Fulfilled success_text))
            (AddFile "docs" ["a.txt"; "b.txt"] (Some 0))
            (initial [{[ "title" := VStr "Guide" ]}])).2 = [] ++ ["a.txt"; "b.txt"].
Proof.
  apply (missing_key_changes_nothing print_Z sample_parse
           (always (Fulfilled success_text)) (AddFile "docs" ["a.txt"; "b.txt"] (Some 0))
           (initial [{[ "title" := VStr "Guide" ]}])).
  reflexivity.
Defined.

Lemma request_method_witness :
  ∃ r,
    issued (invoke print_Z sample_parse (always (Fulfilled success_text))
              (TranslationStatus "docs") (configured "secret" [])).2 = [] ++ [r] ∧
    method r = POST ∧ is_Some (formData r) ∧ is_Some (qs r).
Proof.
  apply (request_method print_Z sample_parse (always (Fulfilled success_text))
           (TranslationStatus "docs") (configured "secret" []) "secret").
  - reflexivity.
  - intros l H; discriminate H.
Defined.
